(** * The git object decoder of git-from-scratch, embedded in Rocq

    The Go program reads a decompressed git object through a
    [bufio.Scanner] split byte by byte, decodes the header
    ["<type> <length>\0"] and renders the body of a blob, a tree or a
    commit on standard output.  The embedding below follows
    [src/unnamed/part_000] (the current revision); module [Hello] holds the
    one function of [src/hello.go] that differs from it.

    - a Go [byte] is a [Byte.byte], a [[]byte] and a Go [string] are both
      [list byte] (the conversion [string(bs)] copies the bytes);
    - a Go [int] is a [Z] inside the 64-bit range;
    - the scanner and standard output are threaded through a small
      state-and-failure monad [M]; [panic] and [log.Fatal] end the run and
      keep what was printed before. *)

From Stdlib Require Import List ZArith NArith Lia Bool String.
From Stdlib Require Import Strings.Byte DecimalString.
Import ListNotations.
Local Open Scope Z_scope.

(** ** Bytes and string literals *)

Definition bytes (s : string) : list byte := list_byte_of_string s.

Definition NUL : byte := x00.
Definition SP : byte := x20.
Definition LF : byte := x0a.

(** ** Constants and records of the source *)

Definition ObjectShaLength : Z := 20.
Definition TruncatedSize : Z := 3072.

Module objectHeader.
Record t : Type := make { objectType : list byte; length : Z }.
End objectHeader.

(** ** The world: a byte-splitting scanner and standard output *)

(** [pending] holds the bytes the scanner has not delivered yet (one token
    per byte, [bufio.ScanBytes]); [readErr] tells whether the underlying
    reader ends these bytes with an error instead of a clean end of file
    (then [Err()] is not nil once the bytes are used up); [stdout] is
    everything printed so far. *)
Record world : Type := mkWorld {
  pending : list byte;
  readErr : bool;
  stdout : list byte
}.

Definition setPending (bs : list byte) (w : world) : world :=
  mkWorld bs (readErr w) (stdout w).

Definition addStdout (bs : list byte) (w : world) : world :=
  mkWorld (pending w) (readErr w) (stdout w ++ bs).

(** The errors of [strconv.Atoi]. *)
Inductive numErr : Type := ErrSyntax | ErrRange.

(** What a [panic] carries: a string, the [*strconv.NumError] of a failed
    [Atoi] (its [Num] and [Err] fields; [Func] is always ["Atoi"]), or the
    run-time error of a slice expression out of bounds. *)
Inductive panicValue : Type :=
| PanicString (msg : list byte)
| PanicNumError (num : list byte) (err : numErr)
| PanicSliceBounds.

(** How a call ends.  [Spinning] is a loop that used up the fuel of its
    model; the totality lemmas below show that it never comes out of the
    functions of the program. *)
Inductive outcome (A : Type) : Type :=
| Returned (a : A)
| Panicked (v : panicValue)
| LogFatal
| Spinning.
Arguments Returned {A} a.
Arguments Panicked {A} v.
Arguments LogFatal {A}.
Arguments Spinning {A}.

Definition M (A : Type) : Type := world -> outcome A * world.

Definition ret {A} (a : A) : M A := fun w => (Returned a, w).

Definition bind {A B} (m : M A) (k : A -> M B) : M B := fun w =>
  match m w with
  | (Returned a, w') => k a w'
  | (Panicked v, w') => (Panicked v, w')
  | (LogFatal, w') => (LogFatal, w')
  | (Spinning, w') => (Spinning, w')
  end.

Definition panic {A} (v : panicValue) : M A := fun w => (Panicked v, w).
Definition spin {A} : M A := fun w => (Spinning, w).

(** [fmt.Print] and friends, once the text is formatted. *)
Definition print (bs : list byte) : M unit := fun w => (Returned tt, addStdout bs w).

Declare Scope go_scope.
Delimit Scope go_scope with go.
Notation "x <- m ;; k" := (bind m (fun x => k))
  (at level 61, m at next level, right associativity) : go_scope.
Notation "m ;;; k" := (bind m (fun _ => k))
  (at level 61, right associativity) : go_scope.
Local Open Scope go_scope.

(** ** The delimited byte reader *)

(** [scanSingleByte]: [Scan()] fails when no byte is left; then a reader
    error is fatal, a clean end of file panics when [throwOnEOF] is set and
    is reported as [(0, true)] otherwise. *)
Definition scanSingleByte (throwOnEOF : bool) : M (byte * bool) := fun w =>
  match pending w with
  | [] =>
      if readErr w then (LogFatal, w)
      else if throwOnEOF then (Panicked (PanicString (bytes "Unexpected EOF")), w)
      else (Returned (x00, true), w)
  | b :: rest => (Returned (b, false), setPending rest w)
  end.

(** The body of the [for] loop of [scanBytesUntilDelimiter]. *)
Fixpoint scanUntilLoop (fuel : nat) (delimiter : byte) (throwOnEOF : bool)
    (scannedBytes : list byte) : M (list byte) :=
  match fuel with
  | O => spin
  | S fuel' =>
      r <- scanSingleByte throwOnEOF ;;
      let '(byteRead, isFailure) := r in
      if isFailure then ret scannedBytes
      else
        let scannedBytes := scannedBytes ++ [byteRead] in
        if Byte.eqb byteRead delimiter then ret scannedBytes
        else scanUntilLoop fuel' delimiter throwOnEOF scannedBytes
  end.

(** [scanBytesUntilDelimiter]: the delimiter is scanned and appended to the
    result.  Every turn of the loop but the last takes one byte, so one
    more turn than there are pending bytes is enough. *)
Definition scanBytesUntilDelimiter (delimiter : byte) (throwOnEOF : bool)
    : M (list byte) := fun w =>
  scanUntilLoop (S (List.length (pending w))) delimiter throwOnEOF [] w.

(** The loop [for i := 1; i <= byteCount; i++] of [scanCountBytes], with
    [n] turns left.  The per-byte read passes [true], whatever the
    function was called with. *)
Fixpoint scanCountLoop (n : nat) (scannedBytes : list byte) : M (list byte) :=
  match n with
  | O => ret scannedBytes
  | S n' =>
      r <- scanSingleByte true ;;
      scanCountLoop n' (scannedBytes ++ [fst r])
  end.

(** [scanCountBytes]: the loop runs [byteCount] times, and not at all when
    [byteCount] is zero or negative. *)
Definition scanCountBytes (byteCount : Z) (throwOnEOF : bool) : M (list byte) :=
  scanCountLoop (Z.to_nat byteCount) [].

(** ** Library functions the decoder calls *)

(** [strings.Split(s, " ")] for a one-byte separator: one field more than
    there are separators, [[""]] for the empty string. *)
Fixpoint Split (s : list byte) (sep : byte) : list (list byte) :=
  match s with
  | [] => [[]]
  | b :: s' =>
      if Byte.eqb b sep then [] :: Split s' sep
      else
        match Split s' sep with
        | [] => [[b]]
        | f :: fs => (b :: f) :: fs
        end
  end.

Definition isDigit (c : byte) : bool :=
  let n := Byte.to_N c in ((48 <=? n) && (n <=? 57))%N.

Definition digitVal (c : byte) : Z := Z.of_N (Byte.to_N c) - 48.

Definition maxUint64 : Z := 2 ^ 64 - 1.
Definition maxInt : Z := 2 ^ 63 - 1.

(** The digit loop of [strconv.ParseUint(s, 10, 64)]: a byte that is no
    digit is a syntax error, a value past 64 bits a range error, whichever
    the scan meets first. *)
Fixpoint parseUintLoop (n : Z) (s : list byte) : Z + numErr :=
  match s with
  | [] => inl n
  | c :: s' =>
      if isDigit c then
        if maxUint64 / 10 + 1 <=? n then inr ErrRange
        else
          let n1 := n * 10 + digitVal c in
          if maxUint64 <? n1 then inr ErrRange else parseUintLoop n1 s'
      else inr ErrSyntax
  end.

Definition ParseUint (s : list byte) : Z + numErr :=
  match s with
  | [] => inr ErrSyntax
  | _ => parseUintLoop 0 s
  end.

(** [strconv.Atoi] on a 64-bit [int]: an optional sign, then decimal digits;
    the value must fit the signed range. *)
Definition Atoi (s : list byte) : Z + numErr :=
  match s with
  | [] => inr ErrSyntax
  | c :: s' =>
      let neg := Byte.eqb c "-" in
      let ds := if Byte.eqb c "+" || neg then s' else s in
      match ParseUint ds with
      | inr ErrSyntax => inr ErrSyntax
      | inr ErrRange => inr ErrRange
      | inl un =>
          if negb neg && (2 ^ 63 <=? un) then inr ErrRange
          else if neg && (2 ^ 63 <? un) then inr ErrRange
          else inl (if neg then - un else un)
      end
  end.

(** The verb [%d] of [fmt] on an [int]. *)
Definition formatInt (n : Z) : list byte :=
  bytes (DecimalString.NilZero.string_of_int (Z.to_int n)).

(** [strings.Join(fields, sep)]. *)
Fixpoint Join (fields : list (list byte)) (sep : list byte) : list byte :=
  match fields with
  | [] => []
  | [f] => f
  | f :: fs => f ++ sep ++ Join fs sep
  end.

(** The verb [%s] of [fmt] on a [[]string]: the fields between brackets,
    one space apart. *)
Definition formatStrings (fields : list (list byte)) : list byte :=
  bytes "[" ++ Join fields (bytes " ") ++ bytes "]".

Definition hextable : list byte := bytes "0123456789abcdef".

Definition hexDigit (n : N) : byte := nth (N.to_nat n) hextable x00.

(** [hex.EncodeToString]: two digits of [hextable] per byte, the high
    nibble first. *)
Fixpoint EncodeToString (src : list byte) : list byte :=
  match src with
  | [] => []
  | v :: src' =>
      hexDigit (N.shiftr (Byte.to_N v) 4)
        :: hexDigit (N.land (Byte.to_N v) 15)
        :: EncodeToString src'
  end.

(** ** The header decoder *)

(** [parseObjectHeader]: the header is ["<object-type> <length>\0"].  The
    slice [headerBytes[:len(headerBytes)-1]] drops the last byte and is out
    of bounds on an empty slice. *)
Definition parseObjectHeader : M objectHeader.t :=
  headerBytes <- scanBytesUntilDelimiter NUL true ;;
  match headerBytes with
  | [] => panic PanicSliceBounds
  | _ :: _ =>
      let headerString := removelast headerBytes in
      let headerComponents := Split headerString SP in
      match headerComponents with
      | [ty; len] =>
          match Atoi len with
          | inr err => panic (PanicNumError len err)
          | inl objectLen => ret (objectHeader.make ty objectLen)
          end
      | _ =>
          panic (PanicString
                   (bytes "Invalid header: " ++ formatStrings headerComponents))
      end
  end.

(** ** The body decoders *)

Definition printCommitContent (byteCount : Z) : M unit :=
  fileMetadataBytes <- scanCountBytes byteCount true ;;
  print fileMetadataBytes.

Definition truncationNotice : list byte :=
  [LF; LF] ++ bytes "(... truncated to 3KB)" ++ [LF].

Definition printBlobContent (byteCount : Z) : M unit :=
  let count :=
    if TruncatedSize <? byteCount then TruncatedSize else byteCount in
  fileMetadataBytes <- scanCountBytes count true ;;
  print fileMetadataBytes ;;;
  if TruncatedSize <? byteCount then print truncationNotice else ret tt.

(** The line [fmt.Printf] writes for one tree entry. *)
Definition treeLine (mode name sha : list byte) : list byte :=
  bytes "fileMode: " ++ mode ++ bytes ", filename: " ++ name
    ++ bytes ", SHA: " ++ sha ++ [LF].

(** The [for] loop of [printTreeContent]. *)
Fixpoint printTreeLoop (fuel : nat) : M unit :=
  match fuel with
  | O => spin
  | S fuel' =>
      fileMetadataBytes <- scanBytesUntilDelimiter NUL false ;;
      match fileMetadataBytes with
      | [] => ret tt
      | _ :: _ =>
          if negb (Byte.eqb (last fileMetadataBytes x00) NUL) then
            panic (PanicString (bytes "Unexpected end of file-metadata"))
          else
            let fileMetadataString := removelast fileMetadataBytes in
            let fileMetadataComponents := Split fileMetadataString SP in
            match fileMetadataComponents with
            | [mode; name] =>
                objectShaBytes <- scanCountBytes ObjectShaLength true ;;
                print (treeLine mode name (EncodeToString objectShaBytes)) ;;;
                printTreeLoop fuel'
            | _ =>
                panic (PanicString (bytes "fileMetadataComponents len must be 2"))
            end
      end
  end.

(** [printTreeContent]: every turn that goes on takes at least one pending
    byte, so one more turn than there are pending bytes is enough. *)
Definition printTreeContent : M unit := fun w =>
  printTreeLoop (S (List.length (pending w))) w.

Definition bytes_eq_dec : forall a b : list byte, {a = b} + {a <> b} :=
  list_eq_dec Byte.byte_eq_dec.

(** The line ["Type: %s, len: %d\n"]. *)
Definition headerLine (header : objectHeader.t) : list byte :=
  bytes "Type: " ++ objectHeader.objectType header ++ bytes ", len: "
    ++ formatInt (objectHeader.length header) ++ [LF].

Definition unsupportedNotice : list byte :=
  bytes "Parsing this tag-type not yet supported" ++ [LF].

(** [printObjectFileContent], run in a world whose scanner was just made
    over [contentReader]. *)
Definition printObjectFileContent : M unit :=
  header <- parseObjectHeader ;;
  print (headerLine header) ;;;
  if bytes_eq_dec (objectHeader.objectType header) (bytes "tree") then
    printTreeContent
  else if bytes_eq_dec (objectHeader.objectType header) (bytes "blob") then
    printBlobContent (objectHeader.length header)
  else if bytes_eq_dec (objectHeader.objectType header) (bytes "commit") then
    printCommitContent (objectHeader.length header)
  else print unsupportedNotice.

(** [bufio.NewScanner(contentReader)] with standard output still empty:
    [content] is what the reader delivers, [failing] whether it ends with
    an error. *)
Definition NewScanner (content : list byte) (failing : bool) : world :=
  mkWorld content failing [].

(** ** Files, the reference lister and the entry point *)

(** What a scanner over an opened file sees: its bytes, and whether reading
    them ends in an error (as on a directory) instead of an end of file. *)
Record file : Type := mkFile { fileBytes : list byte; fileErr : bool }.

(** The calls into the operating system: [os.Open] and [ioutil.ReadDir]
    (the names of the entries, sorted), [None] when they return an error. *)
Record fileSystem : Type := mkFS {
  osOpen : list byte -> option file;
  ioutilReadDir : list byte -> option (list (list byte))
}.

Definition logFatal {A} : M A := fun w => (LogFatal, w).

(** A call that makes its own scanner over [f]: it runs on that scanner,
    and the scanner of the caller is as it was when it returns. *)
Definition withScanner {A} (f : file) (m : M A) : M A := fun w =>
  let '(r, w') := m (mkWorld (fileBytes f) (fileErr f) (stdout w)) in
  (r, mkWorld (pending w) (readErr w) (stdout w')).

(** The run-time panic of an index expression out of range, by its
    message. *)
Definition indexPanic (i n : Z) : panicValue :=
  PanicString
    (bytes "runtime error: index out of range [" ++ formatInt i
       ++ bytes "] with length " ++ formatInt n).

(** [readFile]: the first line of the file, read up to the line feed and
    cut by one byte. *)
Definition readFile (fs : fileSystem) (path : list byte) : M (list byte) :=
  match osOpen fs path with
  | None => logFatal
  | Some f =>
      withScanner f
        (fileMetadataBytes <- scanBytesUntilDelimiter LF false ;;
         match fileMetadataBytes with
         | [] => panic PanicSliceBounds
         | _ :: _ => ret (removelast fileMetadataBytes)
         end)
  end.

(** The [for ... range branches] loop of [listBranches]. *)
Fixpoint listBranchesLoop (fs : fileSystem) (path current_branch : list byte)
    (branches : list (list byte)) : M unit :=
  match branches with
  | [] => ret tt
  | branch :: branches' =>
      branch_hash <- readFile fs (path ++ bytes "/" ++ branch) ;;
      match nth_error (Split current_branch "/") 2 with
      | None =>
          panic (indexPanic 2 (Z.of_nat (List.length (Split current_branch "/"))))
      | Some current =>
          (if bytes_eq_dec branch current then
             print (bytes "* " ++ branch ++ bytes " " ++ branch_hash ++ [LF])
           else print (branch ++ bytes " " ++ branch_hash ++ [LF])) ;;;
          listBranchesLoop fs path current_branch branches'
      end
  end.

Definition listBranches (fs : fileSystem) : M unit :=
  let path := bytes ".git/refs/heads" in
  match ioutilReadDir fs path with
  | None => logFatal
  | Some branches =>
      current_branch <- readFile fs (bytes ".git/HEAD") ;;
      listBranchesLoop fs path current_branch branches
  end.

(** [parseObjectFile].  [zlibNewReader] stands for [zlib.NewReader]: the
    decompressed stream of the file, [None] when it returns an error.  The
    slice [hash[0:2]] is out of bounds on a hash shorter than two bytes. *)
Definition parseObjectFile (fs : fileSystem) (zlibNewReader : file -> option file)
    (hash : list byte) : M unit :=
  let path := bytes ".git/objects/" in
  if (List.length hash <? 2)%nat then panic PanicSliceBounds
  else
    match osOpen fs (path ++ firstn 2 hash ++ bytes "/" ++ skipn 2 hash) with
    | None => logFatal
    | Some objectFile =>
        match zlibNewReader objectFile with
        | None => logFatal
        | Some contentReader => withScanner contentReader printObjectFileContent
        end
    end.

(** [main], from the values of the flags [-branch] and [-hash]. *)
Definition main (fs : fileSystem) (zlibNewReader : file -> option file)
    (branch : bool) (hash : list byte) : M unit :=
  if branch then listBranches fs
  else
    match hash with
    | _ :: _ => parseObjectFile fs zlibNewReader hash
    | [] => print (bytes "No flag selected.. Try --help|-h" ++ [LF])
    end.

(** ** The blob decoder of [src/hello.go] *)

Module Hello.

Definition truncationNotice : list byte :=
  bytes "(... truncated to 3KB)" ++ [LF].

Definition printBlobContent (byteCount : Z) : M unit :=
  let count :=
    if TruncatedSize <? byteCount then TruncatedSize else byteCount in
  fileMetadataBytes <- scanCountBytes count true ;;
  print fileMetadataBytes ;;;
  if TruncatedSize <? byteCount then print truncationNotice else ret tt.

Definition printObjectFileContent : M unit :=
  header <- parseObjectHeader ;;
  print (headerLine header) ;;;
  if bytes_eq_dec (objectHeader.objectType header) (bytes "tree") then
    printTreeContent
  else if bytes_eq_dec (objectHeader.objectType header) (bytes "blob") then
    printBlobContent (objectHeader.length header)
  else if bytes_eq_dec (objectHeader.objectType header) (bytes "commit") then
    printCommitContent (objectHeader.length header)
  else print unsupportedNotice.

(** The [for ... range branches] loop of [main]: each file is read up to a
    NUL and cut by one byte. *)
Fixpoint branchesLoop (fs : fileSystem) (path : list byte)
    (branches : list (list byte)) : M unit :=
  match branches with
  | [] => ret tt
  | branch :: branches' =>
      match osOpen fs (path ++ bytes "/" ++ branch) with
      | None => logFatal
      | Some f =>
          fileMetadataString <-
            withScanner f
              (fileMetadataBytes <- scanBytesUntilDelimiter NUL false ;;
               match fileMetadataBytes with
               | [] => panic PanicSliceBounds
               | _ :: _ => ret (removelast fileMetadataBytes)
               end) ;;
          print (branch ++ bytes " " ++ fileMetadataString ++ [LF]) ;;;
          branchesLoop fs path branches'
      end
  end.

(** [main], from [os.Args]. *)
Definition main (fs : fileSystem) (zlibNewReader : file -> option file)
    (osArgs : list (list byte)) : M unit :=
  match nth_error osArgs 1 with
  | None => panic (indexPanic 1 (Z.of_nat (List.length osArgs)))
  | Some args =>
      if bytes_eq_dec args (bytes "branches") then
        let path := bytes ".git/refs/heads" in
        match ioutilReadDir fs path with
        | None => logFatal
        | Some branches => branchesLoop fs path branches
        end
      else
        let path := bytes ".git/objects/" in
        if (List.length args <? 2)%nat then panic PanicSliceBounds
        else
          match osOpen fs (path ++ firstn 2 args ++ bytes "/" ++ skipn 2 args) with
          | None => logFatal
          | Some objectFile =>
              match zlibNewReader objectFile with
              | None => logFatal
              | Some contentReader =>
                  withScanner contentReader printObjectFileContent
              end
          end
  end.

End Hello.

(** ** The first revision, [src/unnamed/part_001] *)

Module Part001.

(** The [for] loop of [printBlobContent]: the body is read up to a NUL and
    printed, again and again, until a read comes back empty. *)
Fixpoint printBlobLoop (fuel : nat) : M unit :=
  match fuel with
  | O => spin
  | S fuel' =>
      fileMetadataBytes <- scanBytesUntilDelimiter NUL false ;;
      match fileMetadataBytes with
      | [] => ret tt
      | _ :: _ => print fileMetadataBytes ;;; printBlobLoop fuel'
      end
  end.

(** Every turn that goes on takes at least one pending byte. *)
Definition printBlobContent : M unit := fun w =>
  printBlobLoop (S (List.length (pending w))) w.

Definition unsupportedNotice : list byte :=
  bytes "Parsing this blob-type not yet supported" ++ [LF].

Definition printObjectFileContent : M unit :=
  header <- parseObjectHeader ;;
  print (headerLine header) ;;;
  if bytes_eq_dec (objectHeader.objectType header) (bytes "tree") then
    printTreeContent
  else if bytes_eq_dec (objectHeader.objectType header) (bytes "blob") then
    printBlobContent
  else print unsupportedNotice.

End Part001.

(** ** Vocabulary of the statements *)

(** A call fails fatally when it panics or ends in [log.Fatal]. *)
Definition failsFatally {A} (r : outcome A * world) : Prop :=
  match fst r with
  | Panicked _ | LogFatal => True
  | Returned _ | Spinning => False
  end.

(** No byte of [l] is [d]. *)
Definition noByte (d : byte) (l : list byte) : Prop := Forall (fun b => b <> d) l.

(** How a mandatory read ends on a stream that ran dry. *)
Definition prematureEnd {A} (failing : bool) : outcome A :=
  if failing then LogFatal else Panicked (PanicString (bytes "Unexpected EOF")).

(** The value of a string of decimal digits. *)
Definition decimalValue (ds : list byte) : Z :=
  fold_left (fun n c => n * 10 + digitVal c) ds 0.

Definition allDigits (ds : list byte) : Prop := forallb isDigit ds = true.

(** An optional sign, then one digit or more. *)
Definition isDecimal (s : list byte) : bool :=
  match s with
  | [] => false
  | c :: s' =>
      if Byte.eqb c "+" || Byte.eqb c "-" then
        match s' with [] => false | _ => forallb isDigit s' end
      else forallb isDigit s
  end.



(** An entry of a tree body, as the format comment of [printTreeContent]
    has it: ["<file-mode> <file-name>\0"], then 20 bytes of hash. *)
Record treeEntry : Type := mkEntry {
  mode : list byte;
  name : list byte;
  objectHash : list byte
}.

(** The mode and the name hold neither a space nor a NUL, so that the
    segment splits into these two fields, and the hash has 20 bytes. *)
Definition wellFormedEntry (e : treeEntry) : Prop :=
  noByte SP (mode e) /\ noByte NUL (mode e)
  /\ noByte SP (name e) /\ noByte NUL (name e)
  /\ List.length (objectHash e) = 20%nat.

Definition encodeEntry (e : treeEntry) : list byte :=
  mode e ++ SP :: name e ++ NUL :: objectHash e.

Definition encodeTree (es : list treeEntry) : list byte := flat_map encodeEntry es.

(** What the decoder prints for an entry. *)
Definition emitEntry (e : treeEntry) : list byte :=
  treeLine (mode e) (name e) (EncodeToString (objectHash e)).

Definition emitTree (es : list treeEntry) : list byte := flat_map emitEntry es.


(** The line of [listBranches] for a branch: a star before the name of the
    current branch, then the name and the hash. *)
Definition branchLine (current : list byte) (hashOf : list byte -> list byte)
    (branch : list byte) : list byte :=
  (if bytes_eq_dec branch current then bytes "* " else [])
    ++ branch ++ bytes " " ++ hashOf branch ++ [LF].

(** The world when the program starts: nothing printed, no scanner yet. *)
Definition processStart : world := mkWorld [] false [].

(** Sample data for the worked examples. *)
Definition hash0to19 : list byte :=
  [x00; x01; x02; x03; x04; x05; x06; x07; x08; x09;
   x0a; x0b; x0c; x0d; x0e; x0f; x10; x11; x12; x13].

Definition sampleEntries : list treeEntry :=
  [mkEntry (bytes "100644") (bytes "file.txt") hash0to19;
   mkEntry (bytes "40000") (bytes "src") (repeat xff 20)].

Definition sampleRepository : fileSystem :=
  mkFS
    (fun p =>
       if bytes_eq_dec p (bytes ".git/HEAD") then
         Some (mkFile ((bytes "ref: refs/heads/" ++ bytes "main") ++ LF :: []) false)
       else if bytes_eq_dec p (bytes ".git/refs/heads/dev") then
         Some (mkFile (bytes "def456" ++ LF :: []) false)
       else if bytes_eq_dec p (bytes ".git/refs/heads/main") then
         Some (mkFile (bytes "abc123" ++ LF :: []) false)
       else None)
    (fun p =>
       if bytes_eq_dec p (bytes ".git/refs/heads") then Some [bytes "dev"; bytes "main"]
       else None).

Definition sampleHashOf (b : list byte) : list byte :=
  if bytes_eq_dec b (bytes "main") then bytes "abc123" else bytes "def456".

Definition detachedRepository (branches : list (list byte)) : fileSystem :=
  mkFS
    (fun p =>
       if bytes_eq_dec p (bytes ".git/HEAD") then
         Some (mkFile (bytes "abc123" ++ LF :: []) false)
       else if bytes_eq_dec p (bytes ".git/refs/heads/main") then
         Some (mkFile (bytes "abc123" ++ LF :: []) false)
       else None)
    (fun p => if bytes_eq_dec p (bytes ".git/refs/heads") then Some branches else None).

Definition sampleObjects : fileSystem :=
  mkFS
    (fun p =>
       if bytes_eq_dec p (bytes ".git/objects/ab/cdef") then
         Some (mkFile (bytes "blob 5" ++ NUL :: bytes "hello") false)
       else None)
    (fun _ => None).

Definition sampleContentOf (b : list byte) : list byte :=
  if bytes_eq_dec b (bytes "main") then bytes "abc123" ++ [LF]
  else bytes "def456" ++ [LF].

(** ** The reader primitives, in closed form *)

Lemma byte_eqb_refl (b : byte) : Byte.eqb b b = true.
Proof. now apply Byte.byte_dec_lb. Qed.

Lemma byte_eqb_neq (a b : byte) : a <> b -> Byte.eqb a b = false.
Proof.
  intros Hne. destruct (Byte.eqb a b) eqn:E; [|reflexivity].
  now apply Byte.byte_dec_bl in E.
Qed.

Section Reader.

Variables (failing : bool) (out : list byte).

Lemma scanCountLoop_enough (n : nat) :
  forall acc p, (n <= List.length p)%nat ->
    scanCountLoop n acc (mkWorld p failing out)
    = (Returned (acc ++ firstn n p), mkWorld (skipn n p) failing out).
Proof.
  induction n as [|n IH]; intros acc p Hn; simpl.
  - now rewrite app_nil_r.
  - destruct p as [|b p]; simpl in Hn; [lia|].
    unfold bind, scanSingleByte; simpl.
    unfold setPending; simpl.
    rewrite IH by lia. now rewrite <- app_assoc.
Qed.

Lemma scanCountLoop_short (n : nat) :
  forall acc p, (List.length p < n)%nat ->
    scanCountLoop n acc (mkWorld p failing out)
    = (prematureEnd failing, mkWorld [] failing out).
Proof.
  induction n as [|n IH]; intros acc p Hn; [lia|].
  destruct p as [|b p]; simpl in *.
  - unfold bind, scanSingleByte, prematureEnd; simpl.
    now destruct failing.
  - unfold bind, scanSingleByte; simpl. unfold setPending; simpl.
    apply IH. lia.
Qed.

Lemma scanCountBytes_enough (byteCount : Z) (throwOnEOF : bool) (p : list byte) :
  (Z.to_nat byteCount <= List.length p)%nat ->
  scanCountBytes byteCount throwOnEOF (mkWorld p failing out)
  = (Returned (firstn (Z.to_nat byteCount) p),
     mkWorld (skipn (Z.to_nat byteCount) p) failing out).
Proof.
  intros H. unfold scanCountBytes.
  now rewrite scanCountLoop_enough by lia.
Qed.

Lemma scanUntilLoop_found (delimiter : byte) (throwOnEOF : bool) :
  forall seg rest acc fuel,
    noByte delimiter seg -> (List.length seg < fuel)%nat ->
    scanUntilLoop fuel delimiter throwOnEOF acc
      (mkWorld (seg ++ delimiter :: rest) failing out)
    = (Returned (acc ++ seg ++ [delimiter]), mkWorld rest failing out).
Proof.
  induction seg as [|b seg IH]; intros rest acc fuel Hno Hfuel;
    (destruct fuel as [|fuel]; [simpl in Hfuel; lia|]); simpl.
  - unfold bind, scanSingleByte; simpl.
    now rewrite byte_eqb_refl.
  - inversion Hno as [|? ? Hb Hseg]; subst.
    unfold bind, scanSingleByte; simpl.
    destruct (Byte.eqb b delimiter) eqn:E.
    + now apply Byte.byte_dec_bl in E.
    + unfold setPending; simpl.
      rewrite IH by (auto; simpl in Hfuel; lia).
      now rewrite <- app_assoc.
Qed.

Lemma scanUntilLoop_eof (delimiter : byte) (throwOnEOF : bool) :
  forall p acc fuel,
    noByte delimiter p -> (List.length p < fuel)%nat ->
    scanUntilLoop fuel delimiter throwOnEOF acc (mkWorld p failing out)
    = (if failing then LogFatal
       else if throwOnEOF then Panicked (PanicString (bytes "Unexpected EOF"))
       else Returned (acc ++ p),
       mkWorld [] failing out).
Proof.
  induction p as [|b p IH]; intros acc fuel Hno Hfuel;
    (destruct fuel as [|fuel]; [simpl in Hfuel; lia|]); simpl.
  - unfold bind, scanSingleByte; simpl.
    destruct failing; [reflexivity|].
    destruct throwOnEOF; [reflexivity|].
    now rewrite app_nil_r.
  - inversion Hno as [|? ? Hb Hp]; subst.
    unfold bind, scanSingleByte; simpl.
    destruct (Byte.eqb b delimiter) eqn:E.
    + now apply Byte.byte_dec_bl in E.
    + unfold setPending; simpl.
      rewrite IH by (auto; simpl in Hfuel; lia).
      now rewrite <- app_assoc.
Qed.

Lemma scanBytesUntilDelimiter_found (delimiter : byte) (throwOnEOF : bool)
    (seg rest : list byte) :
  noByte delimiter seg ->
  scanBytesUntilDelimiter delimiter throwOnEOF
    (mkWorld (seg ++ delimiter :: rest) failing out)
  = (Returned (seg ++ [delimiter]), mkWorld rest failing out).
Proof.
  intros Hno. unfold scanBytesUntilDelimiter; cbn [pending].
  rewrite (scanUntilLoop_found delimiter throwOnEOF seg rest []); auto.
  rewrite length_app; simpl; lia.
Qed.

Lemma scanBytesUntilDelimiter_eof (delimiter : byte) (throwOnEOF : bool)
    (p : list byte) :
  noByte delimiter p ->
  scanBytesUntilDelimiter delimiter throwOnEOF (mkWorld p failing out)
  = (if failing then LogFatal
     else if throwOnEOF then Panicked (PanicString (bytes "Unexpected EOF"))
     else Returned p,
     mkWorld [] failing out).
Proof.
  intros Hno. unfold scanBytesUntilDelimiter; cbn [pending].
  rewrite (scanUntilLoop_eof delimiter throwOnEOF p []); auto.
Qed.

End Reader.

(** Every list either avoids [d] or splits at its first [d]. *)
Lemma first_delimiter (d : byte) (l : list byte) :
  noByte d l \/ exists seg rest, l = seg ++ d :: rest /\ noByte d seg.
Proof.
  induction l as [|b l IH].
  - left. constructor.
  - destruct (Byte.byte_eq_dec b d) as [->|Hne].
    + right. exists [], l. split; [reflexivity|constructor].
    + destruct IH as [Hno | (seg & rest & -> & Hseg)].
      * left. now constructor.
      * right. exists (b :: seg), rest. split; [reflexivity|now constructor].
Qed.

(** The loop of [scanBytesUntilDelimiter] always ends within its fuel. *)
Lemma scanBytesUntilDelimiter_total (delimiter : byte) (throwOnEOF : bool)
    (w : world) :
  fst (scanBytesUntilDelimiter delimiter throwOnEOF w) <> Spinning.
Proof.
  destruct w as [p failing out].
  destruct (first_delimiter delimiter p) as [Hno | (seg & rest & -> & Hseg)].
  - rewrite scanBytesUntilDelimiter_eof by assumption.
    destruct failing; [discriminate|]. destruct throwOnEOF; discriminate.
  - rewrite scanBytesUntilDelimiter_found by assumption. discriminate.
Qed.

(** ** [Split] *)

Lemma Split_not_nil (s : list byte) (sep : byte) : Split s sep <> [].
Proof.
  destruct s as [|b s]; simpl; [discriminate|].
  destruct (Byte.eqb b sep); [discriminate|].
  destruct (Split s sep); discriminate.
Qed.

Lemma Split_noByte (s : list byte) (sep : byte) :
  noByte sep s -> Split s sep = [s].
Proof.
  induction 1 as [|b s Hb Hs IH]; simpl; [reflexivity|].
  now rewrite (byte_eqb_neq _ _ Hb), IH.
Qed.

Lemma Split_at_first (a b : list byte) (sep : byte) :
  noByte sep a -> Split (a ++ sep :: b) sep = a :: Split b sep.
Proof.
  induction 1 as [|c a Hc Ha IH]; simpl.
  - now rewrite byte_eqb_refl.
  - now rewrite (byte_eqb_neq _ _ Hc), IH.
Qed.

Lemma Split_length (s : list byte) (sep : byte) :
  List.length (Split s sep) = S (count_occ Byte.byte_eq_dec s sep).
Proof.
  induction s as [|b s IH]; simpl; [reflexivity|].
  destruct (Byte.byte_eq_dec b sep) as [->|Hne].
  - rewrite byte_eqb_refl. simpl. now rewrite IH.
  - rewrite (byte_eqb_neq _ _ Hne).
    destruct (Split s sep) eqn:E; simpl in *; [discriminate|assumption].
Qed.

Lemma Split_one_inv (s f : list byte) (sep : byte) :
  Split s sep = [f] -> s = f /\ noByte sep s.
Proof.
  intros H. destruct (first_delimiter sep s) as [Hno | (seg & rest & -> & Hseg)].
  - rewrite (Split_noByte _ _ Hno) in H. inversion H; subst. auto.
  - rewrite (Split_at_first _ _ _ Hseg) in H. inversion H as [[H1 H2]].
    now destruct (Split_not_nil rest sep).
Qed.

Lemma Split_two_inv (s a b : list byte) (sep : byte) :
  Split s sep = [a; b] -> s = a ++ sep :: b /\ noByte sep a /\ noByte sep b.
Proof.
  intros H. destruct (first_delimiter sep s) as [Hno | (seg & rest & -> & Hseg)].
  - rewrite (Split_noByte _ _ Hno) in H. discriminate.
  - rewrite (Split_at_first _ _ _ Hseg) in H. inversion H as [[H1 H2]]. subst seg.
    apply Split_one_inv in H2. destruct H2 as [-> Hrest]. auto.
Qed.

Lemma Split_two (a b : list byte) (sep : byte) :
  noByte sep a -> noByte sep b -> Split (a ++ sep :: b) sep = [a; b].
Proof.
  intros Ha Hb. now rewrite (Split_at_first _ _ _ Ha), (Split_noByte _ _ Hb).
Qed.

(** ** [Atoi] *)

Lemma digitVal_range (c : byte) : isDigit c = true -> 0 <= digitVal c <= 9.
Proof.
  unfold isDigit, digitVal. intros H.
  apply andb_true_iff in H. destruct H as [H1 H2].
  apply N.leb_le in H1, H2. lia.
Qed.

Lemma digit_not_sign (c : byte) :
  isDigit c = true -> Byte.eqb c "+" = false /\ Byte.eqb c "-" = false.
Proof.
  intros H. split; apply byte_eqb_neq; intros ->; discriminate H.
Qed.

Lemma fold_digits_ge (ds : list byte) :
  forall n, allDigits ds -> 0 <= n ->
    n <= fold_left (fun n c => n * 10 + digitVal c) ds n.
Proof.
  unfold allDigits.
  induction ds as [|c ds IH]; intros n Hd Hn; simpl in *; [lia|].
  apply andb_true_iff in Hd. destruct Hd as [Hc Hds].
  pose proof (digitVal_range c Hc).
  specialize (IH (n * 10 + digitVal c) Hds). lia.
Qed.

Lemma parseUintLoop_digits (ds : list byte) :
  forall n, allDigits ds -> 0 <= n ->
    fold_left (fun n c => n * 10 + digitVal c) ds n <= maxUint64 ->
    parseUintLoop n ds = inl (fold_left (fun n c => n * 10 + digitVal c) ds n).
Proof.
  induction ds as [|c ds IH]; intros n Hd Hn Hmax;
    cbn [parseUintLoop fold_left] in *; [reflexivity|].
  unfold allDigits in Hd. cbn [forallb] in Hd.
  apply andb_true_iff in Hd. destruct Hd as [Hc Hds].
  pose proof (digitVal_range c Hc) as Hr.
  assert (Hge := fold_digits_ge ds (n * 10 + digitVal c) Hds ltac:(lia)).
  rewrite Hc.
  assert (E : maxUint64 = 18446744073709551615) by reflexivity.
  replace (maxUint64 / 10 + 1) with 1844674407370955162 by reflexivity.
  destruct (Z.leb_spec 1844674407370955162 n); [lia|].
  destruct (Z.ltb_spec maxUint64 (n * 10 + digitVal c)); [lia|].
  apply IH; auto; lia.
Qed.

Lemma parseUintLoop_not_digits (ds : list byte) :
  forall n, forallb isDigit ds = false -> exists err, parseUintLoop n ds = inr err.
Proof.
  induction ds as [|c ds IH]; intros n Hd; cbn [parseUintLoop forallb] in *;
    [discriminate|].
  destruct (isDigit c); cbn [andb] in Hd.
  - destruct (maxUint64 / 10 + 1 <=? n); [now exists ErrRange|].
    destruct (maxUint64 <? n * 10 + digitVal c); [now exists ErrRange|].
    now apply IH.
  - now exists ErrSyntax.
Qed.

Lemma Atoi_digits (ds : list byte) :
  ds <> [] -> allDigits ds -> decimalValue ds <= maxInt ->
  Atoi ds = inl (decimalValue ds).
Proof.
  intros Hne Hd Hmax. destruct ds as [|c ds]; [contradiction|].
  assert (Hc : isDigit c = true).
  { unfold allDigits in Hd. simpl in Hd. now apply andb_true_iff in Hd. }
  destruct (digit_not_sign c Hc) as [Hplus Hminus].
  unfold Atoi. rewrite Hplus, Hminus. cbn [orb negb andb].
  unfold ParseUint, decimalValue in *.
  unfold maxInt in Hmax.
  rewrite parseUintLoop_digits; auto; [|lia|unfold maxUint64; lia].
  destruct (Z.leb_spec (2 ^ 63) (fold_left (fun n c => n * 10 + digitVal c) (c :: ds) 0));
    [lia|reflexivity].
Qed.


Lemma Atoi_not_decimal (s : list byte) :
  isDecimal s = false -> exists err, Atoi s = inr err.
Proof.
  destruct s as [|c s]; simpl; [now exists ErrSyntax|].
  intros H.
  assert (Hp : exists err, ParseUint (if Byte.eqb c "+" || Byte.eqb c "-" then s else c :: s) = inr err).
  { destruct (Byte.eqb c "+" || Byte.eqb c "-").
    - destruct s as [|d s]; [now exists ErrSyntax|].
      unfold ParseUint. now apply parseUintLoop_not_digits.
    - unfold ParseUint. now apply parseUintLoop_not_digits. }
  destruct Hp as [err Hp]. rewrite Hp. destruct err; eauto.
Qed.

(** ** [EncodeToString] *)




(** ** The header decoder, in closed form *)

Lemma removelast_snoc (l : list byte) (b : byte) : removelast (l ++ [b]) = l.
Proof. apply removelast_last. Qed.

Lemma parseObjectHeader_segment (seg rest : list byte) (failing : bool) (out : list byte) :
  noByte NUL seg ->
  parseObjectHeader (mkWorld (seg ++ NUL :: rest) failing out)
  = (match Split seg SP with
     | [ty; len] =>
         match Atoi len with
         | inr err => Panicked (PanicNumError len err)
         | inl objectLen => Returned (objectHeader.make ty objectLen)
         end
     | comps =>
         Panicked (PanicString (bytes "Invalid header: " ++ formatStrings comps))
     end,
     mkWorld rest failing out).
Proof.
  intros Hno. unfold parseObjectHeader, bind.
  rewrite scanBytesUntilDelimiter_found by assumption.
  destruct (seg ++ [NUL]) as [|b t] eqn:E.
  - now destruct seg.
  - rewrite <- E, removelast_snoc.
    destruct (Split seg SP) as [|ty [|len [|]]]; try reflexivity.
    destruct (Atoi len); reflexivity.
Qed.

Lemma parseObjectHeader_eof (p : list byte) (failing : bool) (out : list byte) :
  noByte NUL p ->
  parseObjectHeader (mkWorld p failing out)
  = (prematureEnd failing, mkWorld [] failing out).
Proof.
  intros Hno. unfold parseObjectHeader, bind.
  rewrite scanBytesUntilDelimiter_eof by assumption.
  now destruct failing.
Qed.

Lemma digit_not_NUL_SP (c : byte) : isDigit c = true -> c <> NUL /\ c <> SP.
Proof. intros H. split; intros ->; discriminate H. Qed.

Lemma allDigits_noByte (ds : list byte) :
  allDigits ds -> noByte NUL ds /\ noByte SP ds.
Proof.
  unfold allDigits, noByte. induction ds as [|c ds IH]; simpl; intros H.
  - split; constructor.
  - apply andb_true_iff in H. destruct H as [Hc Hds].
    destruct (IH Hds) as [H1 H2]. destruct (digit_not_NUL_SP c Hc).
    split; constructor; assumption.
Qed.

Lemma noByte_app (d : byte) (a b : list byte) :
  noByte d a -> noByte d b -> noByte d (a ++ b).
Proof. unfold noByte. intros Ha Hb. apply Forall_app. now split. Qed.

Lemma noByte_cons (d c : byte) (l : list byte) :
  c <> d -> noByte d l -> noByte d (c :: l).
Proof. intros. now constructor. Qed.

Lemma SP_not_NUL : SP <> NUL.
Proof. discriminate. Qed.

Lemma firstn_exact (a b : list byte) : firstn (List.length a) (a ++ b) = a.
Proof. induction a as [|x a IH]; simpl; [now destruct b|now rewrite IH]. Qed.

Lemma skipn_exact (a b : list byte) : skipn (List.length a) (a ++ b) = b.
Proof. induction a as [|x a IH]; simpl; [reflexivity|assumption]. Qed.

(** ** The header decoder *)



(** [noByte] on a given list, by evaluation. *)
Lemma noByte_check (d : byte) (l : list byte) :
  forallb (fun b => negb (Byte.eqb b d)) l = true -> noByte d l.
Proof.
  unfold noByte. induction l as [|b l IH]; simpl; intros H; constructor.
  - intros ->. now rewrite byte_eqb_refl in H.
  - apply IH. now apply andb_true_iff in H.
Qed.




(** ** The read-exact-count primitive *)

(** C9.  On a stream shorter than [byteCount], [scanCountBytes] aborts
    whatever [throwOnEOF] it is given, [false] included: with a panic
    ["Unexpected EOF"] at a clean end of stream, with [log.Fatal] when the
    reader failed.  The argument plays no part, while at the one-byte read
    [false] would have reported the end of stream to the caller. *)
Theorem scanCountBytes_ignores_throwOnEOF
    (byteCount : Z) (throwOnEOF : bool) (p : list byte) (failing : bool)
    (out : list byte) :
  Z.of_nat (List.length p) < byteCount ->
  scanCountBytes byteCount throwOnEOF (mkWorld p failing out)
  = (prematureEnd failing, mkWorld [] failing out)
  /\ failsFatally (scanCountBytes byteCount false (mkWorld p failing out))
  /\ scanCountBytes byteCount false = scanCountBytes byteCount true
  /\ scanSingleByte false (mkWorld [] false out)
     = (Returned (x00, true), mkWorld [] false out).
Proof.
  intros Hshort.
  assert (E : forall t, scanCountBytes byteCount t (mkWorld p failing out)
                        = (prematureEnd failing, mkWorld [] failing out)).
  { intros t. unfold scanCountBytes. apply scanCountLoop_short. lia. }
  repeat split.
  - apply E.
  - rewrite E. unfold failsFatally, prematureEnd. now destruct failing.
Qed.

Lemma scanCountBytes_ignores_throwOnEOF_witness :
  scanCountBytes 6 false (mkWorld (bytes "hello") false [])
  = (prematureEnd false, mkWorld [] false [])
  /\ failsFatally (scanCountBytes 6 false (mkWorld (bytes "hello") false []))
  /\ scanCountBytes 6 false = scanCountBytes 6 true
  /\ scanSingleByte false (mkWorld [] false [])
     = (Returned (x00, true), mkWorld [] false []).
Proof.
  apply (scanCountBytes_ignores_throwOnEOF 6 false (bytes "hello") false []).
  simpl. lia.
Defined.

(** ** The blob and commit decoders *)

Lemma addStdout_nil (w : world) : addStdout [] w = w.
Proof. destruct w as [p e o]. unfold addStdout; simpl. now rewrite app_nil_r. Qed.

(** The blob decoder with any notice, as both revisions are built. *)
Ltac blob_steps :=
  unfold printBlobContent, Hello.printBlobContent, printCommitContent, bind, print,
    ret, addStdout, TruncatedSize; cbn [pending readErr stdout].

Lemma printBlobContent_small (byteCount : Z) (p : list byte) (failing : bool)
    (out : list byte) :
  byteCount <= TruncatedSize -> (Z.to_nat byteCount <= List.length p)%nat ->
  printBlobContent byteCount (mkWorld p failing out)
  = (Returned tt,
     mkWorld (skipn (Z.to_nat byteCount) p) failing
       (out ++ firstn (Z.to_nat byteCount) p))
  /\ Hello.printBlobContent byteCount (mkWorld p failing out)
     = (Returned tt,
        mkWorld (skipn (Z.to_nat byteCount) p) failing
          (out ++ firstn (Z.to_nat byteCount) p)).
Proof.
  unfold TruncatedSize. intros Hle Hlen. blob_steps.
  destruct (Z.ltb_spec 3072 byteCount); [lia|].
  rewrite scanCountBytes_enough by assumption. auto.
Qed.

Lemma printBlobContent_large (byteCount : Z) (p : list byte) (failing : bool)
    (out : list byte) :
  TruncatedSize < byteCount -> (3072 <= List.length p)%nat ->
  printBlobContent byteCount (mkWorld p failing out)
  = (Returned tt,
     mkWorld (skipn 3072 p) failing (out ++ firstn 3072 p ++ truncationNotice))
  /\ Hello.printBlobContent byteCount (mkWorld p failing out)
     = (Returned tt,
        mkWorld (skipn 3072 p) failing
          (out ++ firstn 3072 p ++ Hello.truncationNotice)).
Proof.
  unfold TruncatedSize. intros Hgt Hlen. blob_steps.
  destruct (Z.ltb_spec 3072 byteCount); [|lia].
  rewrite scanCountBytes_enough by (change (Z.to_nat 3072) with 3072%nat; lia).
  change (Z.to_nat 3072) with 3072%nat. cbn [stdout pending readErr].
  now rewrite <- !app_assoc.
Qed.

(** C1.  For a blob whose body holds the [byteCount] bytes its header
    declares, in either revision: up to 3072 bytes the decoder prints the
    body and nothing else; past 3072 it prints the first 3072 bytes of the
    body, then the truncation notice. *)
Theorem printBlobContent_rendering
    (byteCount : Z) (body : list byte) (failing : bool) (out : list byte) :
  Z.of_nat (List.length body) = byteCount ->
  (byteCount <= TruncatedSize ->
     stdout (snd (printBlobContent byteCount (mkWorld body failing out)))
     = out ++ body
     /\ stdout (snd (Hello.printBlobContent byteCount (mkWorld body failing out)))
        = out ++ body)
  /\ (TruncatedSize < byteCount ->
        List.length (firstn 3072 body) = 3072%nat
        /\ stdout (snd (printBlobContent byteCount (mkWorld body failing out)))
           = out ++ firstn 3072 body ++ truncationNotice
        /\ stdout (snd (Hello.printBlobContent byteCount (mkWorld body failing out)))
           = out ++ firstn 3072 body ++ Hello.truncationNotice).
Proof.
  intros Hlen. split; intros Hcmp.
  - destruct (printBlobContent_small byteCount body failing out) as [-> ->];
      [assumption|lia|].
    cbn [snd stdout]. rewrite <- Hlen, Nat2Z.id.
    now rewrite firstn_all.
  - unfold TruncatedSize in Hcmp.
    destruct (printBlobContent_large byteCount body failing out) as [-> ->];
      [assumption|lia|].
    cbn [snd stdout]. rewrite length_firstn. repeat split. lia.
Qed.

Lemma printBlobContent_rendering_witness :
  (stdout (snd (printBlobContent 5 (mkWorld (bytes "hello") false [])))
   = [] ++ bytes "hello"
   /\ stdout (snd (Hello.printBlobContent 5 (mkWorld (bytes "hello") false [])))
      = [] ++ bytes "hello")
  /\ (List.length (firstn 3072 (repeat "a"%byte 3073)) = 3072%nat
      /\ stdout (snd (printBlobContent 3073
                        (mkWorld (repeat "a"%byte 3073) false [])))
         = [] ++ firstn 3072 (repeat "a"%byte 3073) ++ truncationNotice
      /\ stdout (snd (Hello.printBlobContent 3073
                        (mkWorld (repeat "a"%byte 3073) false [])))
         = [] ++ firstn 3072 (repeat "a"%byte 3073) ++ Hello.truncationNotice).
Proof.
  split.
  - apply (printBlobContent_rendering 5 (bytes "hello") false []).
    + reflexivity.
    + unfold TruncatedSize. lia.
  - apply (printBlobContent_rendering 3073 (repeat "a"%byte 3073) false []).
    + vm_compute. reflexivity.
    + unfold TruncatedSize. lia.
Defined.

(** C2, as the code has it.  Past 3072 declared bytes, what follows the
    rendered content is the notice between line feeds: two before it and
    one after it in the current revision, one after it in [hello.go]. *)
Theorem printBlobContent_notice_text
    (byteCount : Z) (body : list byte) (failing : bool) (out : list byte) :
  TruncatedSize < byteCount -> Z.of_nat (List.length body) = byteCount ->
  stdout (snd (printBlobContent byteCount (mkWorld body failing out)))
  = out ++ firstn 3072 body
      ++ ([LF; LF] ++ bytes "(... truncated to 3KB)" ++ [LF])
  /\ stdout (snd (Hello.printBlobContent byteCount (mkWorld body failing out)))
     = out ++ firstn 3072 body ++ (bytes "(... truncated to 3KB)" ++ [LF]).
Proof.
  intros Hgt Hlen. unfold TruncatedSize in Hgt.
  destruct (printBlobContent_large byteCount body failing out) as [-> ->];
    [assumption|lia|].
  split; reflexivity.
Qed.

Lemma printBlobContent_notice_text_witness :
  stdout (snd (printBlobContent 3073 (mkWorld (repeat "a"%byte 3073) false [])))
  = [] ++ firstn 3072 (repeat "a"%byte 3073)
      ++ ([LF; LF] ++ bytes "(... truncated to 3KB)" ++ [LF])
  /\ stdout (snd (Hello.printBlobContent 3073 (mkWorld (repeat "a"%byte 3073) false [])))
     = [] ++ firstn 3072 (repeat "a"%byte 3073)
         ++ (bytes "(... truncated to 3KB)" ++ [LF]).
Proof.
  apply (printBlobContent_notice_text 3073 (repeat "a"%byte 3073) false []);
    vm_compute; reflexivity.
Defined.

(** On a blob of 3073 bytes, what is printed after the 3072 rendered bytes
    is not the bare notice, in neither revision. *)
Lemma printBlobContent_notice_not_bare :
  skipn 3072
    (stdout (snd (printBlobContent 3073 (NewScanner (repeat "a"%byte 3073) false))))
  <> bytes "(... truncated to 3KB)"
  /\ skipn 3072
       (stdout (snd (Hello.printBlobContent 3073
                       (NewScanner (repeat "a"%byte 3073) false))))
     <> bytes "(... truncated to 3KB)".
Proof. split; vm_compute; discriminate. Qed.

(** C8.  Past 3072 declared bytes the blob decoder takes 3072 bytes from
    the scanner and stops: the other [byteCount - 3072] bytes of the body,
    and whatever follows them, are still pending when it returns. *)
Theorem printBlobContent_leaves_remainder
    (byteCount : Z) (body rest : list byte) (failing : bool) (out : list byte) :
  TruncatedSize < byteCount -> Z.of_nat (List.length body) = byteCount ->
  fst (printBlobContent byteCount (mkWorld (body ++ rest) failing out))
  = Returned tt
  /\ pending (snd (printBlobContent byteCount (mkWorld (body ++ rest) failing out)))
     = skipn 3072 body ++ rest
  /\ Z.of_nat (List.length (firstn 3072 body)) = 3072
  /\ Z.of_nat (List.length (skipn 3072 body)) = byteCount - 3072.
Proof.
  intros Hgt Hlen. unfold TruncatedSize in Hgt.
  destruct (printBlobContent_large byteCount (body ++ rest) failing out) as [-> _];
    [assumption|rewrite length_app; lia|].
  cbn [fst snd pending].
  rewrite skipn_app, length_firstn, length_skipn.
  replace (3072 - List.length body)%nat with 0%nat by lia.
  repeat split; lia.
Qed.

Lemma printBlobContent_leaves_remainder_witness :
  fst (printBlobContent 4000 (mkWorld (repeat "a"%byte 4000 ++ []) false []))
  = Returned tt
  /\ pending (snd (printBlobContent 4000
                     (mkWorld (repeat "a"%byte 4000 ++ []) false [])))
     = skipn 3072 (repeat "a"%byte 4000) ++ []
  /\ Z.of_nat (List.length (firstn 3072 (repeat "a"%byte 4000))) = 3072
  /\ Z.of_nat (List.length (skipn 3072 (repeat "a"%byte 4000))) = 4000 - 3072.
Proof.
  apply (printBlobContent_leaves_remainder 4000 (repeat "a"%byte 4000) [] false []).
  - unfold TruncatedSize. lia.
  - vm_compute. reflexivity.
Defined.

(** C7.  When the scanner holds the [byteCount] bytes of the body, the
    commit decoder takes exactly these bytes, prints them as they are and
    nothing else, and leaves what follows pending. *)
Theorem printCommitContent_verbatim
    (byteCount : Z) (body rest : list byte) (failing : bool) (out : list byte) :
  Z.of_nat (List.length body) = byteCount ->
  printCommitContent byteCount (mkWorld (body ++ rest) failing out)
  = (Returned tt, mkWorld rest failing (out ++ body)).
Proof.
  intros Hlen. unfold printCommitContent, bind, print, addStdout.
  rewrite scanCountBytes_enough by (rewrite length_app; lia).
  cbn [pending readErr stdout].
  rewrite <- Hlen, Nat2Z.id.
  now rewrite firstn_exact, skipn_exact.
Qed.

Lemma printCommitContent_verbatim_witness :
  printCommitContent 8 (mkWorld (bytes "tree abc" ++ bytes "tail") false [])
  = (Returned tt, mkWorld (bytes "tail") false ([] ++ bytes "tree abc")).
Proof.
  apply (printCommitContent_verbatim 8 (bytes "tree abc") (bytes "tail") false []).
  reflexivity.
Defined.

(** C10.  With a negative length the read loop does not run: the blob
    decoder of either revision and the commit decoder return with the
    scanner and standard output as they found them, so nothing is read,
    nothing is printed and no notice is added. *)
Theorem negative_length_reads_nothing (byteCount : Z) (w : world) :
  byteCount < 0 ->
  printBlobContent byteCount w = (Returned tt, w)
  /\ printCommitContent byteCount w = (Returned tt, w)
  /\ Hello.printBlobContent byteCount w = (Returned tt, w).
Proof.
  intros Hneg.
  assert (Hcount : Z.to_nat byteCount = 0%nat) by lia.
  unfold printBlobContent, Hello.printBlobContent, printCommitContent, bind,
    scanCountBytes, TruncatedSize.
  destruct (Z.ltb_spec 3072 byteCount); [lia|].
  rewrite Hcount. unfold scanCountLoop, ret, print.
  rewrite addStdout_nil. auto.
Qed.

Lemma negative_length_reads_nothing_witness :
  printBlobContent (-5) (NewScanner (bytes "hello") false)
  = (Returned tt, NewScanner (bytes "hello") false)
  /\ printCommitContent (-5) (NewScanner (bytes "hello") false)
     = (Returned tt, NewScanner (bytes "hello") false)
  /\ Hello.printBlobContent (-5) (NewScanner (bytes "hello") false)
     = (Returned tt, NewScanner (bytes "hello") false).
Proof.
  apply (negative_length_reads_nothing (-5) (NewScanner (bytes "hello") false)).
  lia.
Defined.

(** ** The tree decoder *)

Lemma last_noByte (d : byte) (l : list byte) :
  l <> [] -> noByte d l -> last l x00 <> d.
Proof.
  intros Hne Hno. destruct (exists_last Hne) as (l' & b & ->).
  rewrite last_last. unfold noByte in Hno.
  apply Forall_app in Hno. destruct Hno as [_ Hb]. now inversion Hb.
Qed.

Lemma printTreeLoop_step_eof (fuel : nat) (p : list byte) (failing : bool)
    (out : list byte) :
  noByte NUL p ->
  printTreeLoop (S fuel) (mkWorld p failing out)
  = (if failing then LogFatal
     else match p with
          | [] => Returned tt
          | _ :: _ => Panicked (PanicString (bytes "Unexpected end of file-metadata"))
          end,
     mkWorld [] failing out).
Proof.
  intros Hno. cbn [printTreeLoop]. unfold bind.
  rewrite scanBytesUntilDelimiter_eof by assumption.
  destruct failing; [reflexivity|].
  destruct p as [|b p]; [reflexivity|].
  assert (Hlast : last (b :: p) x00 <> NUL) by (apply last_noByte; [discriminate|assumption]).
  now rewrite (byte_eqb_neq _ _ Hlast).
Qed.

Lemma printTreeLoop_step_found (fuel : nat) (seg rest : list byte) (failing : bool)
    (out : list byte) :
  noByte NUL seg ->
  printTreeLoop (S fuel) (mkWorld (seg ++ NUL :: rest) failing out)
  = match Split seg SP with
    | [m; n] =>
        (objectShaBytes <- scanCountBytes ObjectShaLength true ;;
         print (treeLine m n (EncodeToString objectShaBytes)) ;;;
         printTreeLoop fuel) (mkWorld rest failing out)
    | _ =>
        (Panicked (PanicString (bytes "fileMetadataComponents len must be 2")),
         mkWorld rest failing out)
    end.
Proof.
  intros Hno. cbn [printTreeLoop]. unfold bind at 1.
  rewrite scanBytesUntilDelimiter_found by assumption.
  destruct (seg ++ [NUL]) as [|b t] eqn:E; [now destruct seg|].
  rewrite <- E, last_last, removelast_snoc.
  replace (Byte.eqb NUL NUL) with true by reflexivity. cbn [negb].
  destruct (Split seg SP) as [|m [|n [|]]]; reflexivity.
Qed.

Lemma noByte_app_inv (d : byte) (a b : list byte) :
  noByte d (a ++ b) -> noByte d a /\ noByte d b.
Proof. unfold noByte. apply Forall_app. Qed.

Lemma printTreeLoop_entry (fuel : nat) (e : treeEntry) (tail : list byte)
    (failing : bool) (out : list byte) :
  wellFormedEntry e ->
  printTreeLoop (S fuel) (mkWorld (encodeEntry e ++ tail) failing out)
  = printTreeLoop fuel (mkWorld tail failing (out ++ emitEntry e)).
Proof.
  intros (HmSP & HmNUL & HnSP & HnNUL & Hhash).
  unfold encodeEntry.
  replace ((mode e ++ SP :: name e ++ NUL :: objectHash e) ++ tail)
    with ((mode e ++ SP :: name e) ++ NUL :: (objectHash e ++ tail))
    by (rewrite <- !app_assoc; simpl; rewrite <- app_assoc; reflexivity).
  rewrite printTreeLoop_step_found
    by (apply noByte_app; [assumption|apply noByte_cons; [apply SP_not_NUL|assumption]]).
  rewrite Split_two by assumption.
  unfold bind, print, addStdout.
  rewrite scanCountBytes_enough
    by (change (Z.to_nat ObjectShaLength) with 20%nat; rewrite length_app; lia).
  change (Z.to_nat ObjectShaLength) with 20%nat. rewrite <- Hhash.
  now rewrite firstn_exact, skipn_exact.
Qed.

Lemma printTreeLoop_entries (es : list treeEntry) :
  forall (k : nat) (tail : list byte) (failing : bool) (out : list byte),
    Forall wellFormedEntry es ->
    printTreeLoop (List.length es + k) (mkWorld (encodeTree es ++ tail) failing out)
    = printTreeLoop k (mkWorld tail failing (out ++ emitTree es)).
Proof.
  induction es as [|e es IH]; intros k tail failing out Hwf.
  - simpl. now rewrite app_nil_r.
  - inversion Hwf as [|? ? He Hes]; subst.
    cbn [List.length Nat.add encodeTree emitTree flat_map].
    rewrite <- app_assoc, printTreeLoop_entry by assumption.
    fold (encodeTree es). rewrite IH by assumption.
    fold (emitTree es). now rewrite <- app_assoc.
Qed.

Lemma encodeTree_length (es : list treeEntry) :
  (List.length es <= List.length (encodeTree es))%nat.
Proof.
  induction es as [|e es IH]; simpl; [lia|].
  unfold encodeEntry. rewrite !length_app. simpl. rewrite length_app. simpl. lia.
Qed.

(** The decoder run on well-formed entries followed by [tail]: the entries
    are printed, and the loop goes on from [tail] with fuel to spare. *)
Lemma printTreeContent_entries (es : list treeEntry) (tail : list byte)
    (failing : bool) (out : list byte) :
  Forall wellFormedEntry es ->
  exists k,
    printTreeContent (mkWorld (encodeTree es ++ tail) failing out)
    = printTreeLoop (S (List.length tail + k))
        (mkWorld tail failing (out ++ emitTree es)).
Proof.
  intros Hwf. unfold printTreeContent. cbn [pending].
  pose proof (encodeTree_length es) as Hlen.
  exists (List.length (encodeTree es) - List.length es)%nat.
  rewrite <- (printTreeLoop_entries es) by assumption.
  f_equal. rewrite length_app. lia.
Qed.

(** Whatever is pending, the decoder either returns, and then the pending
    bytes were well-formed entries up to a clean end of stream, or fails
    fatally; the fuel of the model is never used up. *)
Lemma printTreeLoop_dichotomy (fuel : nat) :
  forall (p : list byte) (failing : bool) (out : list byte),
    (List.length p < fuel)%nat ->
    (failing = false
     /\ exists es,
         Forall wellFormedEntry es /\ p = encodeTree es
         /\ printTreeLoop fuel (mkWorld p failing out)
            = (Returned tt, mkWorld [] failing (out ++ emitTree es)))
    \/ failsFatally (printTreeLoop fuel (mkWorld p failing out)).
Proof.
  induction fuel as [|fuel IH]; intros p failing out Hfuel; [lia|].
  destruct (first_delimiter NUL p) as [Hno | (seg & rest & -> & Hseg)].
  - rewrite printTreeLoop_step_eof by assumption.
    destruct failing; [right; exact I|].
    destruct p as [|b p]; [|right; exact I].
    left. split; [reflexivity|]. exists []. simpl. rewrite app_nil_r. auto.
  - rewrite printTreeLoop_step_found by assumption.
    destruct (Split seg SP) as [|m [|n [|]]] eqn:ES; try (right; exact I).
    apply Split_two_inv in ES. destruct ES as (-> & HmSP & HnSP).
    apply noByte_app_inv in Hseg. destruct Hseg as [HmNUL HnNUL].
    inversion HnNUL as [|? ? _ HnNUL']; subst.
    unfold bind.
    destruct (Nat.lt_ge_cases (List.length rest) 20) as [Hshort | Hlong].
    + right. unfold scanCountBytes.
      rewrite scanCountLoop_short
        by (change (Z.to_nat ObjectShaLength) with 20%nat; assumption).
      unfold failsFatally, prematureEnd. now destruct failing.
    + rewrite scanCountBytes_enough
        by (change (Z.to_nat ObjectShaLength) with 20%nat; assumption).
      change (Z.to_nat ObjectShaLength) with 20%nat.
      unfold print, addStdout. cbn [pending readErr stdout].
      rewrite length_app in Hfuel. simpl in Hfuel.
      destruct (IH (skipn 20 rest) failing
                  (out ++ treeLine m n (EncodeToString (firstn 20 rest))))
        as [(Hclean & es & Hwf & Hp & Hrun) | Hfail];
        [rewrite length_skipn; lia| |right; assumption].
      left. split; [assumption|].
      exists (mkEntry m n (firstn 20 rest) :: es). split; [|split].
      * constructor; [|assumption].
        unfold wellFormedEntry; cbn [mode name objectHash].
        rewrite length_firstn. repeat split; auto. lia.
      * cbn [encodeTree flat_map]. fold (encodeTree es). rewrite <- Hp.
        unfold encodeEntry; cbn [mode name objectHash].
        rewrite <- !app_assoc. cbn [app]. rewrite <- app_assoc. cbn [app].
        now rewrite firstn_skipn.
      * rewrite Hrun. cbn [emitTree flat_map]. fold (emitTree es).
        unfold emitEntry; cbn [mode name objectHash].
        now rewrite <- app_assoc.
Qed.

(** The loop of [printTreeContent] always ends within its fuel. *)
Lemma printTreeContent_total (w : world) : fst (printTreeContent w) <> Spinning.
Proof.
  destruct w as [p failing out]. unfold printTreeContent. cbn [pending].
  destruct (printTreeLoop_dichotomy (S (List.length p)) p failing out)
    as [(_ & es & _ & _ & ->) | Hfail]; [lia|discriminate|].
  intros E. unfold failsFatally in Hfail. now rewrite E in Hfail.
Qed.



(** The scenario of the specification: one entry, hash bytes 0 to 19. *)
Example printTreeContent_scenario :
  printTreeContent
    (NewScanner (bytes "100644 file.txt" ++ NUL :: hash0to19) false)
  = (Returned tt,
     mkWorld [] false
       (bytes "fileMode: 100644, filename: file.txt, SHA: 000102030405060708090a0b0c0d0e0f10111213"
          ++ [LF])).
Proof. reflexivity. Qed.

(** ** Dispatch *)















(** The scenarios of the specification, run through the whole decoder. *)
Example printObjectFileContent_blob_scenario :
  printObjectFileContent (NewScanner (bytes "blob 5" ++ NUL :: bytes "hello") false)
  = (Returned tt,
     mkWorld [] false (bytes "Type: blob, len: 5" ++ [LF] ++ bytes "hello")).
Proof. reflexivity. Qed.

Example printObjectFileContent_tag_scenario :
  printObjectFileContent (NewScanner (bytes "tag 5" ++ NUL :: bytes "hello") false)
  = (Returned tt,
     mkWorld (bytes "hello") false
       (bytes "Type: tag, len: 5" ++ [LF]
          ++ bytes "Parsing this tag-type not yet supported" ++ [LF])).
Proof. reflexivity. Qed.

Example printObjectFileContent_empty_tree_scenario :
  printObjectFileContent (NewScanner (bytes "tree 0" ++ [NUL]) false)
  = (Returned tt, mkWorld [] false (bytes "Type: tree, len: 0" ++ [LF])).
Proof. reflexivity. Qed.

Example printObjectFileContent_negative_scenario :
  printObjectFileContent (NewScanner (bytes "blob -5" ++ NUL :: bytes "hello") false)
  = (Returned tt,
     mkWorld (bytes "hello") false (bytes "Type: blob, len: -5" ++ [LF])).
Proof. reflexivity. Qed.

(** * Further properties of the code *)

(** ** The reader primitives *)

(** X1.  Whatever a read up to a delimiter returns was taken off the front
    of the scanner, byte for byte, and nothing was printed.  The result
    ends at the first delimiter, which it includes; or, at a clean end of
    stream with [throwOnEOF] unset, it is everything that was left, without
    a delimiter. *)
Theorem scanBytesUntilDelimiter_conserves
    (delimiter : byte) (throwOnEOF : bool) (w w' : world) (scanned : list byte) :
  scanBytesUntilDelimiter delimiter throwOnEOF w = (Returned scanned, w') ->
  pending w = scanned ++ pending w'
  /\ stdout w' = stdout w /\ readErr w' = readErr w
  /\ ((exists seg, scanned = seg ++ [delimiter] /\ noByte delimiter seg)
      \/ (noByte delimiter scanned /\ pending w' = []
          /\ throwOnEOF = false /\ readErr w = false)).
Proof.
  destruct w as [p e o]. intros H.
  destruct (first_delimiter delimiter p) as [Hno | (seg & rest & -> & Hseg)].
  - rewrite scanBytesUntilDelimiter_eof in H by assumption.
    destruct e; [discriminate|]. destruct throwOnEOF; [discriminate|].
    inversion H; subst. cbn [pending stdout readErr].
    rewrite app_nil_r. repeat split. right. repeat split. assumption.
  - rewrite scanBytesUntilDelimiter_found in H by assumption.
    inversion H; subst. cbn [pending stdout readErr].
    rewrite <- app_assoc. repeat split. left. now exists seg.
Qed.

Lemma scanBytesUntilDelimiter_conserves_witness :
  pending (mkWorld (bytes "ab" ++ LF :: bytes "cd") false [])
  = (bytes "ab" ++ [LF]) ++ pending (mkWorld (bytes "cd") false [])
  /\ stdout (mkWorld (bytes "cd") false [])
     = stdout (mkWorld (bytes "ab" ++ LF :: bytes "cd") false [])
  /\ readErr (mkWorld (bytes "cd") false [])
     = readErr (mkWorld (bytes "ab" ++ LF :: bytes "cd") false [])
  /\ ((exists seg, bytes "ab" ++ [LF] = seg ++ [LF] /\ noByte LF seg)
      \/ (noByte LF (bytes "ab" ++ [LF])
          /\ pending (mkWorld (bytes "cd") false []) = []
          /\ false = false
          /\ readErr (mkWorld (bytes "ab" ++ LF :: bytes "cd") false []) = false)).
Proof.
  apply (scanBytesUntilDelimiter_conserves LF false
           (mkWorld (bytes "ab" ++ LF :: bytes "cd") false [])
           (mkWorld (bytes "cd") false []) (bytes "ab" ++ [LF])).
  reflexivity.
Defined.

(** X2.  Whatever a read of [byteCount] bytes returns has exactly
    [byteCount] bytes (none for a negative count), taken off the front of
    the scanner, and nothing was printed. *)
Theorem scanCountBytes_returns_exact
    (byteCount : Z) (throwOnEOF : bool) (w w' : world) (scanned : list byte) :
  scanCountBytes byteCount throwOnEOF w = (Returned scanned, w') ->
  Z.of_nat (List.length scanned) = Z.max 0 byteCount
  /\ pending w = scanned ++ pending w'
  /\ stdout w' = stdout w /\ readErr w' = readErr w.
Proof.
  destruct w as [p e o]. intros H.
  destruct (Nat.lt_ge_cases (List.length p) (Z.to_nat byteCount)) as [Hshort | Hlong].
  - unfold scanCountBytes in H. rewrite scanCountLoop_short in H by assumption.
    destruct e; discriminate.
  - rewrite scanCountBytes_enough in H by assumption.
    inversion H; subst. cbn [pending stdout readErr].
    rewrite length_firstn, firstn_skipn. repeat split. lia.
Qed.

Lemma scanCountBytes_returns_exact_witness :
  Z.of_nat (List.length (bytes "he")) = Z.max 0 2
  /\ pending (mkWorld (bytes "hello") false []) = bytes "he" ++ pending (mkWorld (bytes "llo") false [])
  /\ stdout (mkWorld (bytes "llo") false []) = stdout (mkWorld (bytes "hello") false [])
  /\ readErr (mkWorld (bytes "llo") false []) = readErr (mkWorld (bytes "hello") false []).
Proof.
  apply (scanCountBytes_returns_exact 2 false (mkWorld (bytes "hello") false [])
           (mkWorld (bytes "llo") false []) (bytes "he")).
  reflexivity.
Defined.

(** X3.  When the stream runs dry before the delimiter shows up: a reader
    error is [log.Fatal] whatever [throwOnEOF] says; at a clean end of
    stream, [throwOnEOF] set panics and unset returns the bytes read so
    far.  The stream is used up in every case. *)
Theorem scanBytesUntilDelimiter_end_of_stream
    (delimiter : byte) (p : list byte) (out : list byte) :
  noByte delimiter p ->
  (forall throwOnEOF,
     scanBytesUntilDelimiter delimiter throwOnEOF (mkWorld p true out)
     = (LogFatal, mkWorld [] true out))
  /\ scanBytesUntilDelimiter delimiter true (mkWorld p false out)
     = (Panicked (PanicString (bytes "Unexpected EOF")), mkWorld [] false out)
  /\ scanBytesUntilDelimiter delimiter false (mkWorld p false out)
     = (Returned p, mkWorld [] false out).
Proof.
  intros Hno. repeat split; intros; now rewrite scanBytesUntilDelimiter_eof.
Qed.

Lemma scanBytesUntilDelimiter_end_of_stream_witness :
  (forall throwOnEOF,
     scanBytesUntilDelimiter NUL throwOnEOF (mkWorld (bytes "blob 5") true [])
     = (LogFatal, mkWorld [] true []))
  /\ scanBytesUntilDelimiter NUL true (mkWorld (bytes "blob 5") false [])
     = (Panicked (PanicString (bytes "Unexpected EOF")), mkWorld [] false [])
  /\ scanBytesUntilDelimiter NUL false (mkWorld (bytes "blob 5") false [])
     = (Returned (bytes "blob 5"), mkWorld [] false []).
Proof.
  apply (scanBytesUntilDelimiter_end_of_stream NUL (bytes "blob 5") []).
  apply noByte_check. reflexivity.
Defined.

(** ** The header decoder *)

Lemma parseUintLoop_nonneg (ds : list byte) :
  forall n un, 0 <= n -> parseUintLoop n ds = inl un -> 0 <= un.
Proof.
  induction ds as [|c ds IH]; intros n un Hn H; cbn [parseUintLoop] in H.
  - inversion H; subst. assumption.
  - destruct (isDigit c) eqn:Hc; [|discriminate].
    destruct (maxUint64 / 10 + 1 <=? n); [discriminate|].
    destruct (maxUint64 <? n * 10 + digitVal c); [discriminate|].
    pose proof (digitVal_range c Hc).
    apply (IH (n * 10 + digitVal c)); [lia|assumption].
Qed.

Lemma parseUintLoop_overflow (ds : list byte) :
  forall n, allDigits ds -> 0 <= n <= maxUint64 ->
    maxUint64 < fold_left (fun n c => n * 10 + digitVal c) ds n ->
    parseUintLoop n ds = inr ErrRange.
Proof.
  induction ds as [|c ds IH]; intros n Hd Hn Hbig;
    cbn [parseUintLoop fold_left] in *; [lia|].
  unfold allDigits in Hd. cbn [forallb] in Hd.
  apply andb_true_iff in Hd. destruct Hd as [Hc Hds]. rewrite Hc.
  pose proof (digitVal_range c Hc).
  destruct (maxUint64 / 10 + 1 <=? n); [reflexivity|].
  destruct (Z.ltb_spec maxUint64 (n * 10 + digitVal c)); [reflexivity|].
  apply IH; auto. lia.
Qed.

Lemma Atoi_plus (ds : list byte) :
  ds <> [] -> allDigits ds -> decimalValue ds <= maxInt ->
  Atoi ("+"%byte :: ds) = inl (decimalValue ds).
Proof.
  intros Hne Hd Hmax. destruct ds as [|c ds]; [contradiction|].
  unfold Atoi.
  replace (Byte.eqb "+" "-") with false by reflexivity.
  replace (Byte.eqb "+" "+") with true by reflexivity.
  cbn [orb negb andb].
  unfold ParseUint, decimalValue, maxInt in *.
  rewrite parseUintLoop_digits; auto; [|lia|unfold maxUint64; lia].
  destruct (Z.leb_spec (2 ^ 63) (fold_left (fun n c => n * 10 + digitVal c) (c :: ds) 0));
    [lia|reflexivity].
Qed.

Lemma Atoi_too_large (ds : list byte) :
  ds <> [] -> allDigits ds -> maxInt < decimalValue ds ->
  Atoi ds = inr ErrRange.
Proof.
  intros Hne Hd Hbig. destruct ds as [|c ds]; [contradiction|].
  assert (Hc : isDigit c = true).
  { unfold allDigits in Hd. simpl in Hd. now apply andb_true_iff in Hd. }
  destruct (digit_not_sign c Hc) as [Hplus Hminus].
  unfold Atoi. rewrite Hplus, Hminus. cbn [orb negb andb].
  unfold ParseUint, decimalValue, maxInt in *.
  destruct (Z.le_gt_cases (fold_left (fun n c => n * 10 + digitVal c) (c :: ds) 0)
              maxUint64) as [Hfit | Hover].
  - rewrite parseUintLoop_digits; auto; [|lia].
    destruct (Z.leb_spec (2 ^ 63)
                (fold_left (fun n c => n * 10 + digitVal c) (c :: ds) 0));
      [reflexivity|lia].
  - rewrite parseUintLoop_overflow;
      [reflexivity|assumption|unfold maxUint64; lia|lia].
Qed.

Lemma Atoi_accepts_only (s : list byte) (v : Z) :
  Atoi s = inl v -> isDecimal s = true /\ - 2 ^ 63 <= v <= maxInt.
Proof.
  intros H. split.
  - destruct (isDecimal s) eqn:E; [reflexivity|].
    destruct (Atoi_not_decimal s E) as [err Herr]. congruence.
  - destruct s as [|c s]; [discriminate|]. unfold Atoi in H.
    destruct (ParseUint (if Byte.eqb c "+" || Byte.eqb c "-" then s else c :: s))
      as [un|[|]] eqn:Eu; try discriminate.
    assert (Hun : 0 <= un).
    { unfold ParseUint in Eu.
      destruct (if Byte.eqb c "+" || Byte.eqb c "-" then s else c :: s)
        as [|d ds]; [discriminate|].
      apply (parseUintLoop_nonneg (d :: ds) 0 un); [lia|assumption]. }
    unfold maxInt.
    destruct (Byte.eqb c "-"); cbn [negb andb] in H.
    + destruct (Z.ltb_spec (2 ^ 63) un); [discriminate|].
      inversion H; subst. lia.
    + destruct (Z.leb_spec (2 ^ 63) un); [discriminate|].
      inversion H; subst. lia.
Qed.

(** X4.  The header decoder returns only on a header of the right shape:
    what it took from the scanner is the type, one space, a decimal
    integer with an optional sign and a value inside [int], and the NUL;
    type and length are the two fields; nothing was printed. *)
Theorem parseObjectHeader_accepts_only
    (w w1 : world) (header : objectHeader.t) :
  parseObjectHeader w = (Returned header, w1) ->
  exists len,
    pending w = objectHeader.objectType header ++ SP :: len ++ NUL :: pending w1
    /\ noByte SP (objectHeader.objectType header)
    /\ noByte NUL (objectHeader.objectType header)
    /\ noByte SP len /\ noByte NUL len
    /\ isDecimal len = true /\ Atoi len = inl (objectHeader.length header)
    /\ - 2 ^ 63 <= objectHeader.length header <= maxInt
    /\ stdout w1 = stdout w.
Proof.
  destruct w as [p e o]. intros H.
  destruct (first_delimiter NUL p) as [Hno | (seg & rest & -> & Hseg)].
  - rewrite parseObjectHeader_eof in H by assumption. destruct e; discriminate.
  - rewrite parseObjectHeader_segment in H by assumption.
    destruct (Split seg SP) as [|ty [|len [|]]] eqn:ES; try discriminate.
    destruct (Atoi len) as [n|err] eqn:EA; [|discriminate].
    inversion H; subst. cbn [pending stdout objectHeader.objectType objectHeader.length].
    apply Split_two_inv in ES. destruct ES as (-> & HtySP & HlenSP).
    apply noByte_app_inv in Hseg. destruct Hseg as [HtyNUL HlenNUL].
    inversion HlenNUL as [|? ? _ HlenNUL']; subst.
    destruct (Atoi_accepts_only len n EA) as [Hdec Hrange].
    exists len. rewrite <- app_assoc. repeat split; auto; apply Hrange.
Qed.

Lemma parseObjectHeader_accepts_only_witness :
  exists len,
    pending (NewScanner (bytes "blob 5" ++ NUL :: bytes "hello") false)
    = objectHeader.objectType (objectHeader.make (bytes "blob") 5)
        ++ SP :: len ++ NUL :: pending (mkWorld (bytes "hello") false [])
    /\ noByte SP (objectHeader.objectType (objectHeader.make (bytes "blob") 5))
    /\ noByte NUL (objectHeader.objectType (objectHeader.make (bytes "blob") 5))
    /\ noByte SP len /\ noByte NUL len
    /\ isDecimal len = true
    /\ Atoi len = inl (objectHeader.length (objectHeader.make (bytes "blob") 5))
    /\ - 2 ^ 63 <= objectHeader.length (objectHeader.make (bytes "blob") 5) <= maxInt
    /\ stdout (mkWorld (bytes "hello") false [])
       = stdout (NewScanner (bytes "blob 5" ++ NUL :: bytes "hello") false).
Proof.
  apply (parseObjectHeader_accepts_only
           (NewScanner (bytes "blob 5" ++ NUL :: bytes "hello") false)
           (mkWorld (bytes "hello") false [])
           (objectHeader.make (bytes "blob") 5)).
  reflexivity.
Defined.

(** X5.  A plus sign before the digits of the length is taken: the header
    ["<type> +<digits>\0"] decodes to the type and the value of the
    digits. *)
Theorem parseObjectHeader_plus_sign
    (ty ds rest : list byte) (failing : bool) (out : list byte) :
  noByte SP ty -> noByte NUL ty ->
  ds <> [] -> allDigits ds -> decimalValue ds <= maxInt ->
  parseObjectHeader (mkWorld (ty ++ SP :: "+"%byte :: ds ++ NUL :: rest) failing out)
  = (Returned (objectHeader.make ty (decimalValue ds)), mkWorld rest failing out).
Proof.
  intros HtySP HtyNUL Hne Hds Hmax.
  destruct (allDigits_noByte ds Hds) as [HdsNUL HdsSP].
  replace (ty ++ SP :: "+"%byte :: ds ++ NUL :: rest)
    with ((ty ++ SP :: "+"%byte :: ds) ++ NUL :: rest)
    by now rewrite <- app_assoc.
  rewrite parseObjectHeader_segment.
  - rewrite Split_two; [|assumption|apply noByte_cons; [discriminate|assumption]].
    now rewrite Atoi_plus.
  - apply noByte_app; [assumption|].
    apply noByte_cons; [apply SP_not_NUL|].
    apply noByte_cons; [discriminate|assumption].
Qed.

Lemma parseObjectHeader_plus_sign_witness :
  parseObjectHeader
    (mkWorld (bytes "blob" ++ SP :: "+"%byte :: bytes "007" ++ NUL :: bytes "hello")
       false [])
  = (Returned (objectHeader.make (bytes "blob") (decimalValue (bytes "007"))),
     mkWorld (bytes "hello") false []).
Proof.
  apply (parseObjectHeader_plus_sign (bytes "blob") (bytes "007") (bytes "hello")
           false []);
    try (apply noByte_check; reflexivity); try reflexivity; try discriminate.
Defined.

(** X6.  A length whose digits are worth more than the largest [int] makes
    the header decoder panic with the range error of [Atoi]; the scanner
    is left after the NUL and nothing is printed. *)
Theorem parseObjectHeader_length_out_of_range
    (ty ds rest : list byte) (failing : bool) (out : list byte) :
  noByte SP ty -> noByte NUL ty ->
  ds <> [] -> allDigits ds -> maxInt < decimalValue ds ->
  parseObjectHeader (mkWorld (ty ++ SP :: ds ++ NUL :: rest) failing out)
  = (Panicked (PanicNumError ds ErrRange), mkWorld rest failing out).
Proof.
  intros HtySP HtyNUL Hne Hds Hbig.
  destruct (allDigits_noByte ds Hds) as [HdsNUL HdsSP].
  replace (ty ++ SP :: ds ++ NUL :: rest) with ((ty ++ SP :: ds) ++ NUL :: rest)
    by now rewrite <- app_assoc.
  rewrite parseObjectHeader_segment
    by (apply noByte_app; [assumption|apply noByte_cons; [apply SP_not_NUL|assumption]]).
  rewrite Split_two by assumption.
  now rewrite Atoi_too_large.
Qed.

Lemma parseObjectHeader_length_out_of_range_witness :
  parseObjectHeader
    (mkWorld (bytes "blob" ++ SP :: bytes "9223372036854775808" ++ NUL :: bytes "hello")
       false [])
  = (Panicked (PanicNumError (bytes "9223372036854775808") ErrRange),
     mkWorld (bytes "hello") false []).
Proof.
  apply (parseObjectHeader_length_out_of_range (bytes "blob")
           (bytes "9223372036854775808") (bytes "hello") false []);
    try (apply noByte_check; reflexivity); try reflexivity; try discriminate.
Defined.

(** X7.  On a stream without a NUL, the empty stream included, the header
    decoder uses the stream up and fails: a panic ["Unexpected EOF"] at a
    clean end, [log.Fatal] on a reader error.  Nothing is printed. *)
Theorem parseObjectHeader_without_NUL
    (p : list byte) (failing : bool) (out : list byte) :
  noByte NUL p ->
  parseObjectHeader (mkWorld p failing out)
  = (prematureEnd failing, mkWorld [] failing out)
  /\ failsFatally (parseObjectHeader (mkWorld p failing out)).
Proof.
  intros Hno. rewrite parseObjectHeader_eof by assumption.
  split; [reflexivity|]. unfold failsFatally, prematureEnd. now destruct failing.
Qed.

Lemma parseObjectHeader_without_NUL_witness :
  parseObjectHeader (mkWorld [] false [])
  = (prematureEnd false, mkWorld [] false [])
  /\ failsFatally (parseObjectHeader (mkWorld [] false [])).
Proof.
  apply (parseObjectHeader_without_NUL [] false []). constructor.
Defined.

(** X8.  The slice expression that cuts the NUL off the header is never out
    of bounds, and the read loop of the header always ends: the header
    decoder returns, panics with a string or an [Atoi] error, or ends in
    [log.Fatal]. *)
Theorem parseObjectHeader_slice_in_bounds (w : world) :
  fst (parseObjectHeader w) <> Panicked PanicSliceBounds
  /\ fst (parseObjectHeader w) <> Spinning.
Proof.
  destruct w as [p e o].
  destruct (first_delimiter NUL p) as [Hno | (seg & rest & -> & Hseg)].
  - rewrite parseObjectHeader_eof by assumption.
    destruct e; split; discriminate.
  - rewrite parseObjectHeader_segment by assumption.
    destruct (Split seg SP) as [|ty [|len [|]]]; try (split; discriminate).
    destruct (Atoi len); split; discriminate.
Qed.

(** ** The body decoders *)

Lemma printBlobContent_short (byteCount : Z) (p : list byte) (failing : bool)
    (out : list byte) :
  Z.of_nat (List.length p) < Z.min byteCount 3072 ->
  printBlobContent byteCount (mkWorld p failing out)
  = (prematureEnd failing, mkWorld [] failing out)
  /\ Hello.printBlobContent byteCount (mkWorld p failing out)
     = (prematureEnd failing, mkWorld [] failing out).
Proof.
  intros Hshort.
  unfold printBlobContent, Hello.printBlobContent, bind, scanCountBytes, TruncatedSize.
  destruct (Z.ltb_spec 3072 byteCount);
    rewrite scanCountLoop_short by lia;
    unfold prematureEnd; destruct failing; auto.
Qed.

(** X9.  A blob body that ends before the bytes to render are there (the
    declared length, 3072 at most) is all lost: the decoder of either
    revision uses the stream up and fails, with a panic ["Unexpected EOF"]
    or [log.Fatal], and prints none of it. *)
Theorem printBlobContent_short_body
    (byteCount : Z) (p : list byte) (failing : bool) (out : list byte) :
  Z.of_nat (List.length p) < Z.min byteCount TruncatedSize ->
  printBlobContent byteCount (mkWorld p failing out)
  = (prematureEnd failing, mkWorld [] failing out)
  /\ Hello.printBlobContent byteCount (mkWorld p failing out)
     = (prematureEnd failing, mkWorld [] failing out).
Proof. unfold TruncatedSize. apply printBlobContent_short. Qed.

Lemma printBlobContent_short_body_witness :
  printBlobContent 5 (mkWorld (bytes "hell") false [])
  = (prematureEnd false, mkWorld [] false [])
  /\ Hello.printBlobContent 5 (mkWorld (bytes "hell") false [])
     = (prematureEnd false, mkWorld [] false []).
Proof.
  apply (printBlobContent_short_body 5 (bytes "hell") false []).
  unfold TruncatedSize. simpl. lia.
Defined.

(** X10.  A commit body shorter than the declared length is all lost: the
    decoder uses the stream up and fails, and prints none of it. *)
Theorem printCommitContent_short_body
    (byteCount : Z) (p : list byte) (failing : bool) (out : list byte) :
  Z.of_nat (List.length p) < byteCount ->
  printCommitContent byteCount (mkWorld p failing out)
  = (prematureEnd failing, mkWorld [] failing out).
Proof.
  intros Hshort. unfold printCommitContent, bind, scanCountBytes.
  rewrite scanCountLoop_short by lia.
  unfold prematureEnd. now destruct failing.
Qed.

Lemma printCommitContent_short_body_witness :
  printCommitContent 9 (mkWorld (bytes "tree abc") false [])
  = (prematureEnd false, mkWorld [] false []).
Proof.
  apply (printCommitContent_short_body 9 (bytes "tree abc") false []).
  simpl. lia.
Defined.

(** X11.  Whatever the declared length and the stream, the blob decoder
    adds to standard output 3072 bytes of content at most, and after them
    nothing but its notice. *)
Theorem printBlobContent_output_bound (byteCount : Z) (w : world) :
  (exists printed,
     stdout (snd (printBlobContent byteCount w)) = stdout w ++ printed
     /\ (List.length printed <= 3072 + List.length truncationNotice)%nat)
  /\ (exists printed,
        stdout (snd (Hello.printBlobContent byteCount w)) = stdout w ++ printed
        /\ (List.length printed <= 3072 + List.length Hello.truncationNotice)%nat).
Proof.
  destruct w as [p e o]. cbn [stdout].
  destruct (Z.lt_ge_cases (Z.of_nat (List.length p)) (Z.min byteCount 3072))
    as [Hshort | Hlong].
  - destruct (printBlobContent_short byteCount p e o Hshort) as [-> ->].
    split; exists []; cbn [snd stdout]; rewrite app_nil_r; split; auto; simpl; lia.
  - destruct (Z.le_gt_cases byteCount 3072) as [Hsmall | Hlarge].
    + destruct (printBlobContent_small byteCount p e o) as [-> ->];
        [unfold TruncatedSize; lia|lia|].
      split; exists (firstn (Z.to_nat byteCount) p); cbn [snd stdout];
        (split; [reflexivity|rewrite length_firstn; lia]).
    + destruct (printBlobContent_large byteCount p e o) as [-> ->];
        [unfold TruncatedSize; lia|lia|].
      split; eexists; cbn [snd stdout]; (split; [reflexivity|]);
        rewrite length_app, length_firstn; lia.
Qed.

(** ** The tree decoder *)

(** X12.  A tree entry whose hash is cut short by the end of the stream
    stops the decoder, with a panic ["Unexpected EOF"] or [log.Fatal]: the
    lines of the entries before it are printed, none for the entry
    itself. *)
Theorem printTreeContent_short_hash
    (es : list treeEntry) (m n hashPart : list byte) (failing : bool)
    (out : list byte) :
  Forall wellFormedEntry es ->
  noByte SP m -> noByte NUL m -> noByte SP n -> noByte NUL n ->
  (List.length hashPart < 20)%nat ->
  printTreeContent
    (mkWorld (encodeTree es ++ m ++ SP :: n ++ NUL :: hashPart) failing out)
  = (prematureEnd failing, mkWorld [] failing (out ++ emitTree es)).
Proof.
  intros Hwf HmSP HmNUL HnSP HnNUL Hshort.
  destruct (printTreeContent_entries es (m ++ SP :: n ++ NUL :: hashPart) failing out Hwf)
    as [k ->].
  replace (m ++ SP :: n ++ NUL :: hashPart) with ((m ++ SP :: n) ++ NUL :: hashPart)
    by now rewrite <- app_assoc.
  rewrite printTreeLoop_step_found
    by (apply noByte_app; [assumption|apply noByte_cons; [apply SP_not_NUL|assumption]]).
  rewrite Split_two by assumption.
  unfold bind, scanCountBytes.
  rewrite scanCountLoop_short
    by (change (Z.to_nat ObjectShaLength) with 20%nat; assumption).
  unfold prematureEnd. now destruct failing.
Qed.

Lemma printTreeContent_short_hash_witness :
  printTreeContent
    (mkWorld (encodeTree sampleEntries
                ++ bytes "100644" ++ SP :: bytes "cut.txt" ++ NUL :: bytes "0123456789")
       false [])
  = (prematureEnd false, mkWorld [] false ([] ++ emitTree sampleEntries)).
Proof.
  apply (printTreeContent_short_hash sampleEntries (bytes "100644") (bytes "cut.txt")
           (bytes "0123456789") false []);
    try (apply noByte_check; reflexivity).
  - repeat (apply Forall_cons;
            [unfold wellFormedEntry; cbn [mode name objectHash];
             repeat split; apply noByte_check; reflexivity|]).
    apply Forall_nil.
  - simpl. lia.
Defined.

(** X13.  When the reader fails where the stream of a tree stops, on an
    entry boundary or inside a segment, the decoder ends in [log.Fatal]
    after the lines of the whole entries: a reader error never passes for
    the end of the tree. *)
Theorem printTreeContent_reader_error
    (es : list treeEntry) (seg : list byte) (out : list byte) :
  Forall wellFormedEntry es -> noByte NUL seg ->
  printTreeContent (mkWorld (encodeTree es ++ seg) true out)
  = (LogFatal, mkWorld [] true (out ++ emitTree es)).
Proof.
  intros Hwf Hseg.
  destruct (printTreeContent_entries es seg true out Hwf) as [k ->].
  now rewrite printTreeLoop_step_eof.
Qed.

Lemma printTreeContent_reader_error_witness :
  printTreeContent (mkWorld (encodeTree sampleEntries ++ []) true [])
  = (LogFatal, mkWorld [] true ([] ++ emitTree sampleEntries)).
Proof.
  apply (printTreeContent_reader_error sampleEntries [] []).
  - repeat (apply Forall_cons;
            [unfold wellFormedEntry; cbn [mode name objectHash];
             repeat split; apply noByte_check; reflexivity|]).
    apply Forall_nil.
  - constructor.
Defined.

(** ** Whole objects *)

Lemma parseObjectHeader_decimal (ty ds rest : list byte) (failing : bool)
    (out : list byte) :
  noByte SP ty -> noByte NUL ty ->
  ds <> [] -> allDigits ds -> decimalValue ds <= maxInt ->
  parseObjectHeader (mkWorld (ty ++ SP :: ds ++ NUL :: rest) failing out)
  = (Returned (objectHeader.make ty (decimalValue ds)), mkWorld rest failing out).
Proof.
  intros HtySP HtyNUL Hne Hds Hmax.
  destruct (allDigits_noByte ds Hds) as [HdsNUL HdsSP].
  replace (ty ++ SP :: ds ++ NUL :: rest) with ((ty ++ SP :: ds) ++ NUL :: rest)
    by now rewrite <- app_assoc.
  rewrite parseObjectHeader_segment
    by (apply noByte_app; [assumption|apply noByte_cons; [apply SP_not_NUL|assumption]]).
  rewrite Split_two by assumption.
  now rewrite Atoi_digits.
Qed.

Lemma parseObjectHeader_silent (w w1 : world) (r : outcome objectHeader.t) :
  parseObjectHeader w = (r, w1) -> stdout w1 = stdout w.
Proof.
  destruct w as [p e o]. intros H.
  destruct (first_delimiter NUL p) as [Hno | (seg & rest & -> & Hseg)].
  - rewrite parseObjectHeader_eof in H by assumption. now inversion H.
  - rewrite parseObjectHeader_segment in H by assumption. now inversion H.
Qed.

Lemma printObjectFileContent_dispatch (w w1 : world) (header : objectHeader.t) :
  parseObjectHeader w = (Returned header, w1) ->
  printObjectFileContent w
  = (if bytes_eq_dec (objectHeader.objectType header) (bytes "tree")
     then printTreeContent
     else if bytes_eq_dec (objectHeader.objectType header) (bytes "blob")
     then printBlobContent (objectHeader.length header)
     else if bytes_eq_dec (objectHeader.objectType header) (bytes "commit")
     then printCommitContent (objectHeader.length header)
     else print unsupportedNotice)
      (addStdout (headerLine header) w1).
Proof.
  intros Hparse. unfold printObjectFileContent, bind at 1. rewrite Hparse.
  unfold bind, print. reflexivity.
Qed.

(** The type of a header, compared with the three names, by evaluation. *)
Ltac dispatch_on_type :=
  repeat match goal with
         | |- context [bytes_eq_dec ?a ?b] =>
             let E := fresh "E" in
             destruct (bytes_eq_dec a b) as [E|E];
             [try (vm_compute in E; discriminate E)
             |try (exfalso; apply E; reflexivity)]
         end.

(** X14.  A blob object as git stores it, ["blob <N>\0"] and then the [N]
    bytes of the body, decodes in one run to the header line and the first
    3072 bytes of the body (all of it when it is not longer), with the
    notice after them when [N] is more than 3072; what was not rendered is
    still pending. *)
Theorem printObjectFileContent_blob_object
    (ds body : list byte) (failing : bool) :
  ds <> [] -> allDigits ds ->
  decimalValue ds = Z.of_nat (List.length body) -> decimalValue ds <= maxInt ->
  printObjectFileContent (NewScanner (bytes "blob" ++ SP :: ds ++ NUL :: body) failing)
  = (Returned tt,
     mkWorld (skipn 3072 body) failing
       (headerLine (objectHeader.make (bytes "blob") (decimalValue ds))
          ++ firstn 3072 body
          ++ (if 3072 <? decimalValue ds then truncationNotice else []))).
Proof.
  intros Hne Hds Hlen Hmax. unfold NewScanner.
  rewrite (printObjectFileContent_dispatch _ (mkWorld body failing [])
             (objectHeader.make (bytes "blob") (decimalValue ds)))
    by (apply parseObjectHeader_decimal; auto; apply noByte_check; reflexivity).
  cbn [objectHeader.objectType objectHeader.length]. dispatch_on_type.
  unfold addStdout; cbn [pending readErr stdout app].
  destruct (Z.ltb_spec 3072 (decimalValue ds)) as [Hlarge | Hsmall].
  - destruct (printBlobContent_large (decimalValue ds) body failing
                (headerLine (objectHeader.make (bytes "blob") (decimalValue ds))))
      as [-> _]; [unfold TruncatedSize; lia|lia|reflexivity].
  - destruct (printBlobContent_small (decimalValue ds) body failing
                (headerLine (objectHeader.make (bytes "blob") (decimalValue ds))))
      as [-> _]; [unfold TruncatedSize; lia|lia|].
    rewrite Hlen, Nat2Z.id, firstn_all, skipn_all.
    rewrite firstn_all2, skipn_all2 by lia.
    now rewrite app_nil_r.
Qed.

Lemma printObjectFileContent_blob_object_witness :
  printObjectFileContent
    (NewScanner (bytes "blob" ++ SP :: bytes "5" ++ NUL :: bytes "hello") false)
  = (Returned tt,
     mkWorld (skipn 3072 (bytes "hello")) false
       (headerLine (objectHeader.make (bytes "blob") (decimalValue (bytes "5")))
          ++ firstn 3072 (bytes "hello")
          ++ (if 3072 <? decimalValue (bytes "5") then truncationNotice else []))).
Proof.
  apply (printObjectFileContent_blob_object (bytes "5") (bytes "hello") false);
    try reflexivity; discriminate.
Defined.

(** X15.  A commit object, ["commit <N>\0"] and then the [N] bytes of the
    body, decodes in one run to the header line and the body as it is,
    however long, and the stream is used up. *)
Theorem printObjectFileContent_commit_object
    (ds body : list byte) (failing : bool) :
  ds <> [] -> allDigits ds ->
  decimalValue ds = Z.of_nat (List.length body) -> decimalValue ds <= maxInt ->
  printObjectFileContent (NewScanner (bytes "commit" ++ SP :: ds ++ NUL :: body) failing)
  = (Returned tt,
     mkWorld [] failing
       (headerLine (objectHeader.make (bytes "commit") (decimalValue ds)) ++ body)).
Proof.
  intros Hne Hds Hlen Hmax. unfold NewScanner.
  rewrite (printObjectFileContent_dispatch _ (mkWorld body failing [])
             (objectHeader.make (bytes "commit") (decimalValue ds)))
    by (apply parseObjectHeader_decimal; auto; apply noByte_check; reflexivity).
  cbn [objectHeader.objectType objectHeader.length]. dispatch_on_type.
  unfold addStdout; cbn [pending readErr stdout app].
  unfold printCommitContent, bind, print, addStdout.
  rewrite scanCountBytes_enough by lia.
  cbn [pending readErr stdout].
  now rewrite Hlen, Nat2Z.id, firstn_all, skipn_all.
Qed.

Lemma printObjectFileContent_commit_object_witness :
  printObjectFileContent
    (NewScanner (bytes "commit" ++ SP :: bytes "8" ++ NUL :: bytes "tree abc") false)
  = (Returned tt,
     mkWorld [] false
       (headerLine (objectHeader.make (bytes "commit") (decimalValue (bytes "8")))
          ++ bytes "tree abc")).
Proof.
  apply (printObjectFileContent_commit_object (bytes "8") (bytes "tree abc") false);
    try reflexivity; discriminate.
Defined.

(** X16.  A tree object decodes in one run to the header line and one line
    per entry.  The length its header declares is printed and otherwise
    plays no part: the entries are read to the end of the stream whatever
    it says. *)
Theorem printObjectFileContent_tree_object
    (ds : list byte) (es : list treeEntry) :
  ds <> [] -> allDigits ds -> decimalValue ds <= maxInt ->
  Forall wellFormedEntry es ->
  printObjectFileContent
    (NewScanner (bytes "tree" ++ SP :: ds ++ NUL :: encodeTree es) false)
  = (Returned tt,
     mkWorld [] false
       (headerLine (objectHeader.make (bytes "tree") (decimalValue ds))
          ++ emitTree es)).
Proof.
  intros Hne Hds Hmax Hwf. unfold NewScanner.
  rewrite (printObjectFileContent_dispatch _ (mkWorld (encodeTree es) false [])
             (objectHeader.make (bytes "tree") (decimalValue ds)))
    by (apply parseObjectHeader_decimal; auto; apply noByte_check; reflexivity).
  cbn [objectHeader.objectType objectHeader.length]. dispatch_on_type.
  unfold addStdout; cbn [pending readErr stdout app].
  destruct (printTreeContent_entries es [] false
              (headerLine (objectHeader.make (bytes "tree") (decimalValue ds))) Hwf)
    as [k Hk].
  rewrite app_nil_r in Hk. rewrite Hk.
  now rewrite printTreeLoop_step_eof by constructor.
Qed.

Lemma printObjectFileContent_tree_object_witness :
  printObjectFileContent
    (NewScanner (bytes "tree" ++ SP :: bytes "0" ++ NUL :: encodeTree sampleEntries) false)
  = (Returned tt,
     mkWorld [] false
       (headerLine (objectHeader.make (bytes "tree") (decimalValue (bytes "0")))
          ++ emitTree sampleEntries)).
Proof.
  apply (printObjectFileContent_tree_object (bytes "0") sampleEntries);
    try reflexivity; try discriminate.
  repeat (apply Forall_cons;
          [unfold wellFormedEntry; cbn [mode name objectHash];
           repeat split; apply noByte_check; reflexivity|]).
  apply Forall_nil.
Defined.

Lemma parseObjectHeader_not_spinning (w : world) :
  fst (parseObjectHeader w) <> Spinning.
Proof.
  destruct w as [p e o].
  destruct (first_delimiter NUL p) as [Hno | (seg & rest & -> & Hseg)].
  - rewrite parseObjectHeader_eof by assumption. destruct e; discriminate.
  - rewrite parseObjectHeader_segment by assumption.
    destruct (Split seg SP) as [|ty [|len [|]]]; try discriminate.
    destruct (Atoi len); discriminate.
Qed.

(** X17.  When the header does not decode, the run ends there with the
    failure of the header decoder and nothing at all is printed, not even
    a header line. *)
Theorem printObjectFileContent_header_failure
    (w w1 : world) (r : outcome objectHeader.t) :
  parseObjectHeader w = (r, w1) ->
  (forall header, r <> Returned header) ->
  failsFatally (printObjectFileContent w)
  /\ snd (printObjectFileContent w) = w1
  /\ stdout (snd (printObjectFileContent w)) = stdout w.
Proof.
  intros Hparse Hfail.
  pose proof (parseObjectHeader_silent w w1 r Hparse) as Hout.
  pose proof (parseObjectHeader_not_spinning w) as Hspin.
  rewrite Hparse in Hspin. cbn [fst] in Hspin.
  unfold printObjectFileContent, bind. rewrite Hparse.
  destruct r as [header| | |]; cbn [fst snd].
  - now destruct (Hfail header).
  - split; [exact I|split; [reflexivity|exact Hout]].
  - split; [exact I|split; [reflexivity|exact Hout]].
  - contradiction.
Qed.

Lemma printObjectFileContent_header_failure_witness :
  failsFatally (printObjectFileContent (NewScanner (bytes "blob 5") false))
  /\ snd (printObjectFileContent (NewScanner (bytes "blob 5") false))
     = mkWorld [] false []
  /\ stdout (snd (printObjectFileContent (NewScanner (bytes "blob 5") false)))
     = stdout (NewScanner (bytes "blob 5") false).
Proof.
  apply (printObjectFileContent_header_failure (NewScanner (bytes "blob 5") false)
           (mkWorld [] false [])
           (Panicked (PanicString (bytes "Unexpected EOF")))).
  - reflexivity.
  - discriminate.
Defined.

(** X18.  When the stream ends before the body the header declares is
    there (for a blob, before the bytes to render are there), the run
    prints the header line and nothing of the body, and fails with a panic
    ["Unexpected EOF"] or [log.Fatal]. *)
Theorem printObjectFileContent_truncated_body
    (ds blobBody commitBody : list byte) (failing : bool) :
  ds <> [] -> allDigits ds -> decimalValue ds <= maxInt ->
  Z.of_nat (List.length blobBody) < Z.min (decimalValue ds) 3072 ->
  Z.of_nat (List.length commitBody) < decimalValue ds ->
  printObjectFileContent
    (NewScanner (bytes "blob" ++ SP :: ds ++ NUL :: blobBody) failing)
  = (prematureEnd failing,
     mkWorld [] failing
       (headerLine (objectHeader.make (bytes "blob") (decimalValue ds))))
  /\ printObjectFileContent
       (NewScanner (bytes "commit" ++ SP :: ds ++ NUL :: commitBody) failing)
     = (prematureEnd failing,
        mkWorld [] failing
          (headerLine (objectHeader.make (bytes "commit") (decimalValue ds)))).
Proof.
  intros Hne Hds Hmax Hblob Hcommit. unfold NewScanner. split.
  - rewrite (printObjectFileContent_dispatch _ (mkWorld blobBody failing [])
               (objectHeader.make (bytes "blob") (decimalValue ds)))
      by (apply parseObjectHeader_decimal; auto; apply noByte_check; reflexivity).
    cbn [objectHeader.objectType objectHeader.length]. dispatch_on_type.
    unfold addStdout; cbn [pending readErr stdout app].
    now destruct (printBlobContent_short (decimalValue ds) blobBody failing
                    (headerLine (objectHeader.make (bytes "blob") (decimalValue ds)))
                    Hblob) as [-> _].
  - rewrite (printObjectFileContent_dispatch _ (mkWorld commitBody failing [])
               (objectHeader.make (bytes "commit") (decimalValue ds)))
      by (apply parseObjectHeader_decimal; auto; apply noByte_check; reflexivity).
    cbn [objectHeader.objectType objectHeader.length]. dispatch_on_type.
    unfold addStdout; cbn [pending readErr stdout app].
    unfold printCommitContent, bind, scanCountBytes.
    rewrite scanCountLoop_short by lia.
    unfold prematureEnd. now destruct failing.
Qed.

Lemma printObjectFileContent_truncated_body_witness :
  printObjectFileContent
    (NewScanner (bytes "blob" ++ SP :: bytes "5" ++ NUL :: bytes "hell") false)
  = (prematureEnd false,
     mkWorld [] false
       (headerLine (objectHeader.make (bytes "blob") (decimalValue (bytes "5")))))
  /\ printObjectFileContent
       (NewScanner (bytes "commit" ++ SP :: bytes "5" ++ NUL :: bytes "tree") false)
     = (prematureEnd false,
        mkWorld [] false
          (headerLine (objectHeader.make (bytes "commit") (decimalValue (bytes "5"))))).
Proof.
  apply (printObjectFileContent_truncated_body (bytes "5") (bytes "hell")
           (bytes "tree") false);
    try reflexivity; discriminate.
Defined.

(** ** The first revision *)

Lemma Part001_printBlobLoop_clean (fuel : nat) :
  forall (p out : list byte),
    (List.length p < fuel)%nat ->
    Part001.printBlobLoop fuel (mkWorld p false out)
    = (Returned tt, mkWorld [] false (out ++ p)).
Proof.
  induction fuel as [|fuel IH]; intros p out Hfuel; [lia|].
  cbn [Part001.printBlobLoop]. unfold bind at 1.
  destruct (first_delimiter NUL p) as [Hno | (seg & rest & -> & Hseg)].
  - rewrite scanBytesUntilDelimiter_eof by assumption.
    destruct p as [|b p].
    + unfold ret. now rewrite app_nil_r.
    + unfold bind, print, addStdout. cbn [pending readErr stdout].
      rewrite IH by (simpl in *; lia). now rewrite app_nil_r.
  - rewrite scanBytesUntilDelimiter_found by assumption.
    destruct (seg ++ [NUL]) as [|b t] eqn:E; [now destruct seg|].
    rewrite <- E. unfold bind, print, addStdout. cbn [pending readErr stdout].
    rewrite length_app in Hfuel. simpl in Hfuel.
    rewrite IH by lia. now rewrite <- !app_assoc.
Qed.

Lemma Part001_printBlobLoop_failing (fuel : nat) :
  forall (p out : list byte),
    (List.length p < fuel)%nat ->
    exists whole cut,
      p = whole ++ cut /\ noByte NUL cut
      /\ (whole = [] \/ exists front, whole = front ++ [NUL])
      /\ Part001.printBlobLoop fuel (mkWorld p true out)
         = (LogFatal, mkWorld [] true (out ++ whole)).
Proof.
  induction fuel as [|fuel IH]; intros p out Hfuel; [lia|].
  cbn [Part001.printBlobLoop]. unfold bind at 1.
  destruct (first_delimiter NUL p) as [Hno | (seg & rest & -> & Hseg)].
  - rewrite scanBytesUntilDelimiter_eof by assumption.
    exists [], p. rewrite app_nil_r. auto.
  - rewrite scanBytesUntilDelimiter_found by assumption.
    destruct (seg ++ [NUL]) as [|b t] eqn:E; [now destruct seg|].
    rewrite <- E. unfold bind, print, addStdout. cbn [pending readErr stdout].
    rewrite length_app in Hfuel. simpl in Hfuel.
    destruct (IH rest (out ++ seg ++ [NUL])) as (whole & cut & -> & Hcut & Hwhole & ->);
      [lia|].
    exists ((seg ++ [NUL]) ++ whole), cut. repeat split.
    + rewrite <- !app_assoc. reflexivity.
    + assumption.
    + right. destruct Hwhole as [-> | (front & ->)].
      * exists seg. now rewrite app_nil_r.
      * exists ((seg ++ [NUL]) ++ front). now rewrite <- !app_assoc.
    + now rewrite <- !app_assoc.
Qed.

(** X19.  The blob decoder of the first revision, which knows no length,
    prints all that is pending, NUL bytes included, up to a clean end of
    stream, and uses the stream up. *)
Theorem Part001_printBlobContent_echoes (p out : list byte) :
  Part001.printBlobContent (mkWorld p false out)
  = (Returned tt, mkWorld [] false (out ++ p)).
Proof.
  unfold Part001.printBlobContent. cbn [pending].
  apply Part001_printBlobLoop_clean. lia.
Qed.

(** X20.  When the reader fails at the end of the stream, the blob decoder
    of the first revision ends in [log.Fatal] having printed the stream up
    to its last NUL: the bytes after the last NUL are read and lost. *)
Theorem Part001_printBlobContent_reader_error (p out : list byte) :
  exists whole cut,
    p = whole ++ cut /\ noByte NUL cut
    /\ (whole = [] \/ exists front, whole = front ++ [NUL])
    /\ Part001.printBlobContent (mkWorld p true out)
       = (LogFatal, mkWorld [] true (out ++ whole)).
Proof.
  unfold Part001.printBlobContent. cbn [pending].
  apply Part001_printBlobLoop_failing. lia.
Qed.

Lemma Part001_printObjectFileContent_dispatch (w w1 : world) (header : objectHeader.t) :
  parseObjectHeader w = (Returned header, w1) ->
  Part001.printObjectFileContent w
  = (if bytes_eq_dec (objectHeader.objectType header) (bytes "tree")
     then printTreeContent
     else if bytes_eq_dec (objectHeader.objectType header) (bytes "blob")
     then Part001.printBlobContent
     else print Part001.unsupportedNotice)
      (addStdout (headerLine header) w1).
Proof.
  intros Hparse. unfold Part001.printObjectFileContent, bind at 1. rewrite Hparse.
  unfold bind, print. reflexivity.
Qed.

(** X21.  In the first revision the length a blob header declares is
    printed and otherwise plays no part: after the header line the whole
    rest of the stream is printed, be it longer or shorter than
    declared. *)
Theorem Part001_printObjectFileContent_blob
    (ds rest : list byte) :
  ds <> [] -> allDigits ds -> decimalValue ds <= maxInt ->
  Part001.printObjectFileContent
    (NewScanner (bytes "blob" ++ SP :: ds ++ NUL :: rest) false)
  = (Returned tt,
     mkWorld [] false
       (headerLine (objectHeader.make (bytes "blob") (decimalValue ds)) ++ rest)).
Proof.
  intros Hne Hds Hmax. unfold NewScanner.
  rewrite (Part001_printObjectFileContent_dispatch _ (mkWorld rest false [])
             (objectHeader.make (bytes "blob") (decimalValue ds)))
    by (apply parseObjectHeader_decimal; auto; apply noByte_check; reflexivity).
  cbn [objectHeader.objectType objectHeader.length]. dispatch_on_type.
  unfold addStdout; cbn [pending readErr stdout app].
  unfold Part001.printBlobContent. cbn [pending].
  apply Part001_printBlobLoop_clean. lia.
Qed.

Lemma Part001_printObjectFileContent_blob_witness :
  Part001.printObjectFileContent
    (NewScanner (bytes "blob" ++ SP :: bytes "2" ++ NUL :: bytes "hello") false)
  = (Returned tt,
     mkWorld [] false
       (headerLine (objectHeader.make (bytes "blob") (decimalValue (bytes "2")))
          ++ bytes "hello")).
Proof.
  apply (Part001_printObjectFileContent_blob (bytes "2") (bytes "hello"));
    try reflexivity; discriminate.
Defined.

(** X22.  The first revision decodes trees and blobs only: for any other
    type, commit included, it prints the header line and its own notice,
    and leaves the body in the scanner. *)
Theorem Part001_printObjectFileContent_other_types
    (w w1 : world) (header : objectHeader.t) :
  parseObjectHeader w = (Returned header, w1) ->
  objectHeader.objectType header <> bytes "tree" ->
  objectHeader.objectType header <> bytes "blob" ->
  Part001.printObjectFileContent w
  = (Returned tt,
     mkWorld (pending w1) (readErr w1)
       (stdout w ++ headerLine header ++ Part001.unsupportedNotice)).
Proof.
  intros Hparse Htree Hblob.
  rewrite (Part001_printObjectFileContent_dispatch w w1 header Hparse).
  destruct (bytes_eq_dec (objectHeader.objectType header) (bytes "tree"));
    [contradiction|].
  destruct (bytes_eq_dec (objectHeader.objectType header) (bytes "blob"));
    [contradiction|].
  unfold print, addStdout. cbn [pending readErr stdout].
  now rewrite (parseObjectHeader_silent w w1 _ Hparse), <- app_assoc.
Qed.

Lemma Part001_printObjectFileContent_other_types_witness :
  Part001.printObjectFileContent
    (NewScanner (bytes "commit 8" ++ NUL :: bytes "tree abc") false)
  = (Returned tt,
     mkWorld (pending (mkWorld (bytes "tree abc") false []))
       (readErr (mkWorld (bytes "tree abc") false []))
       (stdout (NewScanner (bytes "commit 8" ++ NUL :: bytes "tree abc") false)
          ++ headerLine (objectHeader.make (bytes "commit") 8)
          ++ Part001.unsupportedNotice)).
Proof.
  apply (Part001_printObjectFileContent_other_types
           (NewScanner (bytes "commit 8" ++ NUL :: bytes "tree abc") false)
           (mkWorld (bytes "tree abc") false [])
           (objectHeader.make (bytes "commit") 8));
    try reflexivity; intros E; vm_compute in E; discriminate E.
Defined.

(** ** Reference files *)

Lemma world_eta (w : world) : mkWorld (pending w) (readErr w) (stdout w) = w.
Proof. now destruct w. Qed.

Lemma readFile_line
    (fs : fileSystem) (path line rest : list byte) (e : bool) (w : world) :
  osOpen fs path = Some (mkFile (line ++ LF :: rest) e) ->
  noByte LF line ->
  readFile fs path w = (Returned line, w).
Proof.
  intros Hopen Hline. unfold readFile, withScanner. rewrite Hopen.
  cbn [fileBytes fileErr]. unfold bind.
  rewrite scanBytesUntilDelimiter_found by assumption.
  destruct (line ++ [LF]) as [|b t] eqn:E; [now destruct line|].
  rewrite <- E, removelast_snoc. unfold ret. cbn [stdout].
  now rewrite world_eta.
Qed.

(** X23.  [readFile] gives the first line of the file without its line
    feed, whatever follows it, and leaves scanner and standard output of
    the caller alone. *)
Theorem readFile_first_line
    (fs : fileSystem) (path line rest : list byte) (e : bool) (w : world) :
  osOpen fs path = Some (mkFile (line ++ LF :: rest) e) ->
  noByte LF line ->
  readFile fs path w = (Returned line, w).
Proof. apply readFile_line. Qed.

Lemma readFile_first_line_witness :
  readFile (mkFS (fun _ => Some (mkFile (bytes "ref: refs/heads/main" ++ LF :: bytes "x") false))
              (fun _ => None))
    (bytes ".git/HEAD") processStart
  = (Returned (bytes "ref: refs/heads/main"), processStart).
Proof.
  apply (readFile_first_line _ (bytes ".git/HEAD") (bytes "ref: refs/heads/main")
           (bytes "x") false processStart).
  - reflexivity.
  - apply noByte_check. reflexivity.
Defined.

(** X24.  On a file that holds no line feed [readFile] still cuts one
    byte: it returns the content without its last byte.  On an empty file
    the cut is out of bounds and the call panics. *)
Theorem readFile_without_line_feed
    (fs : fileSystem) (path emptyPath content : list byte) (w : world) :
  osOpen fs path = Some (mkFile content false) ->
  content <> [] -> noByte LF content ->
  osOpen fs emptyPath = Some (mkFile [] false) ->
  readFile fs path w = (Returned (removelast content), w)
  /\ readFile fs emptyPath w = (Panicked PanicSliceBounds, w).
Proof.
  intros Hopen Hne Hno Hempty. unfold readFile, withScanner.
  rewrite Hopen, Hempty. cbn [fileBytes fileErr]. unfold bind.
  rewrite !scanBytesUntilDelimiter_eof by (assumption || constructor).
  destruct content as [|b t]; [contradiction|].
  unfold ret, panic. cbn [stdout]. now rewrite world_eta.
Qed.

Lemma readFile_without_line_feed_witness :
  readFile (mkFS (fun p => if bytes_eq_dec p (bytes "ref") then Some (mkFile (bytes "abc123") false)
                           else Some (mkFile [] false))
              (fun _ => None))
    (bytes "ref") processStart
  = (Returned (removelast (bytes "abc123")), processStart)
  /\ readFile (mkFS (fun p => if bytes_eq_dec p (bytes "ref") then Some (mkFile (bytes "abc123") false)
                              else Some (mkFile [] false))
                 (fun _ => None))
       (bytes "empty") processStart
     = (Panicked PanicSliceBounds, processStart).
Proof.
  apply (readFile_without_line_feed _ (bytes "ref") (bytes "empty") (bytes "abc123")
           processStart);
    try reflexivity; try discriminate.
  apply noByte_check. reflexivity.
Defined.

(** X25.  [readFile] ends in [log.Fatal] when the file does not open, and
    when reading fails before a line feed was met; nothing is printed. *)
Theorem readFile_fatal
    (fs : fileSystem) (missing broken content : list byte) (w : world) :
  osOpen fs missing = None ->
  osOpen fs broken = Some (mkFile content true) -> noByte LF content ->
  readFile fs missing w = (LogFatal, w)
  /\ readFile fs broken w = (LogFatal, w).
Proof.
  intros Hmissing Hbroken Hno. unfold readFile, withScanner, logFatal.
  rewrite Hmissing, Hbroken. cbn [fileBytes fileErr]. unfold bind.
  rewrite scanBytesUntilDelimiter_eof by assumption.
  cbn [stdout]. now rewrite world_eta.
Qed.

Lemma readFile_fatal_witness :
  readFile (mkFS (fun p => if bytes_eq_dec p (bytes "dir") then Some (mkFile [] true) else None)
              (fun _ => None))
    (bytes "none") processStart
  = (LogFatal, processStart)
  /\ readFile (mkFS (fun p => if bytes_eq_dec p (bytes "dir") then Some (mkFile [] true) else None)
                 (fun _ => None))
       (bytes "dir") processStart
     = (LogFatal, processStart).
Proof.
  apply (readFile_fatal _ (bytes "none") (bytes "dir") [] processStart);
    try reflexivity.
  constructor.
Defined.

(** ** The reference lister *)

Lemma addStdout_addStdout (a b : list byte) (w : world) :
  addStdout b (addStdout a w) = addStdout (a ++ b) w.
Proof. unfold addStdout. cbn [pending readErr stdout]. now rewrite app_assoc. Qed.

Lemma listBranchesLoop_lines (fs : fileSystem) (path current cur : list byte)
    (hashOf : list byte -> list byte) (branches : list (list byte)) :
  nth_error (Split current "/") 2 = Some cur ->
  Forall (fun b =>
            exists rest e,
              osOpen fs (path ++ bytes "/" ++ b) = Some (mkFile (hashOf b ++ LF :: rest) e)
              /\ noByte LF (hashOf b)) branches ->
  forall w,
    listBranchesLoop fs path current branches w
    = (Returned tt, addStdout (flat_map (branchLine cur hashOf) branches) w).
Proof.
  intros Hcur. induction 1 as [|b bs (rest & e & Hopen & Hhash) _ IH]; intros w.
  - cbn [listBranchesLoop flat_map]. unfold ret. now rewrite addStdout_nil.
  - cbn [listBranchesLoop flat_map]. unfold bind at 1.
    rewrite (readFile_line fs _ (hashOf b) rest e w Hopen Hhash).
    rewrite Hcur. unfold bind, branchLine.
    destruct (bytes_eq_dec b cur); unfold print;
      rewrite IH, addStdout_addStdout; reflexivity.
Qed.

Lemma Split_symbolic_ref (cur : list byte) :
  noByte "/" cur ->
  Split (bytes "ref: refs/heads/" ++ cur) "/" = [bytes "ref: refs"; bytes "heads"; cur].
Proof.
  intros Hcur.
  change (bytes "ref: refs/heads/" ++ cur)
    with (bytes "ref: refs" ++ "/"%byte :: (bytes "heads" ++ "/"%byte :: cur)).
  rewrite Split_at_first by (apply noByte_check; reflexivity).
  rewrite Split_at_first by (apply noByte_check; reflexivity).
  now rewrite Split_noByte.
Qed.

(** X26.  With [HEAD] pointing at [refs/heads/<current>] [listBranches]
    prints one line per entry of the directory, in the order of the
    directory: the name and the first line of the file of the branch, with
    a star before the lines of the entries named [current] and of no
    other. *)
Theorem listBranches_marks_current
    (fs : fileSystem) (branches : list (list byte)) (current headRest : list byte)
    (e : bool) (hashOf : list byte -> list byte) (w : world) :
  ioutilReadDir fs (bytes ".git/refs/heads") = Some branches ->
  osOpen fs (bytes ".git/HEAD")
  = Some (mkFile ((bytes "ref: refs/heads/" ++ current) ++ LF :: headRest) e) ->
  noByte "/" current -> noByte LF current ->
  Forall (fun b =>
            exists rest e',
              osOpen fs (bytes ".git/refs/heads" ++ bytes "/" ++ b)
              = Some (mkFile (hashOf b ++ LF :: rest) e')
              /\ noByte LF (hashOf b)) branches ->
  listBranches fs w
  = (Returned tt, addStdout (flat_map (branchLine current hashOf) branches) w).
Proof.
  intros Hdir Hhead Hslash Hlf Hfiles. unfold listBranches. rewrite Hdir.
  unfold bind at 1.
  rewrite (readFile_line fs _ (bytes "ref: refs/heads/" ++ current) headRest e w Hhead)
    by (apply noByte_app; [apply noByte_check; reflexivity|assumption]).
  apply listBranchesLoop_lines; [|assumption].
  now rewrite Split_symbolic_ref.
Qed.

Lemma listBranches_marks_current_witness :
  listBranches sampleRepository processStart
  = (Returned tt,
     addStdout (flat_map (branchLine (bytes "main") sampleHashOf)
                  [bytes "dev"; bytes "main"]) processStart).
Proof.
  apply (listBranches_marks_current sampleRepository [bytes "dev"; bytes "main"]
           (bytes "main") [] false sampleHashOf processStart);
    try reflexivity; try (apply noByte_check; reflexivity).
  repeat (apply Forall_cons;
          [exists [], false; split; [reflexivity|apply noByte_check; reflexivity]|]).
  apply Forall_nil.
Defined.

(** X27.  When the first line of [HEAD] holds fewer than two slashes, as
    with a detached head, [listBranches] reads the file of the first branch
    and then panics on the index of the third field of that line, before
    any line is printed.  With no branch in the directory it returns
    without printing, whatever [HEAD] points at. *)
Theorem listBranches_detached_head
    (fs fs0 : fileSystem) (branch : list byte) (others : list (list byte))
    (headLine headRest hash rest headLine0 headRest0 : list byte) (e e' e0 : bool)
    (w : world) :
  ioutilReadDir fs (bytes ".git/refs/heads") = Some (branch :: others) ->
  osOpen fs (bytes ".git/HEAD") = Some (mkFile (headLine ++ LF :: headRest) e) ->
  noByte LF headLine ->
  (count_occ Byte.byte_eq_dec headLine "/"%byte < 2)%nat ->
  osOpen fs (bytes ".git/refs/heads" ++ bytes "/" ++ branch)
  = Some (mkFile (hash ++ LF :: rest) e') ->
  noByte LF hash ->
  ioutilReadDir fs0 (bytes ".git/refs/heads") = Some [] ->
  osOpen fs0 (bytes ".git/HEAD") = Some (mkFile (headLine0 ++ LF :: headRest0) e0) ->
  noByte LF headLine0 ->
  listBranches fs w
  = (Panicked
       (indexPanic 2 (Z.of_nat (S (count_occ Byte.byte_eq_dec headLine "/"%byte)))),
     w)
  /\ listBranches fs0 w = (Returned tt, w).
Proof.
  intros Hdir Hhead Hlf Hcount Hopen Hhash Hdir0 Hhead0 Hlf0. split.
  - unfold listBranches. rewrite Hdir. unfold bind at 1.
    rewrite (readFile_line fs _ headLine headRest e w Hhead Hlf).
    cbn [listBranchesLoop]. unfold bind at 1.
    rewrite (readFile_line fs _ hash rest e' w Hopen Hhash).
    pose proof (Split_length headLine "/"%byte) as Hlen.
    destruct (nth_error (Split headLine "/") 2) eqn:En.
    + assert (Hsome : nth_error (Split headLine "/") 2 <> None) by congruence.
      apply nth_error_Some in Hsome. lia.
    + now rewrite Hlen.
  - unfold listBranches. rewrite Hdir0. unfold bind at 1.
    now rewrite (readFile_line fs0 _ headLine0 headRest0 e0 w Hhead0 Hlf0).
Qed.

Lemma listBranches_detached_head_witness :
  listBranches (detachedRepository [bytes "main"]) processStart
  = (Panicked
       (indexPanic 2 (Z.of_nat (S (count_occ Byte.byte_eq_dec (bytes "abc123") "/"%byte)))),
     processStart)
  /\ listBranches (detachedRepository []) processStart = (Returned tt, processStart).
Proof.
  apply (listBranches_detached_head (detachedRepository [bytes "main"])
           (detachedRepository []) (bytes "main") [] (bytes "abc123") []
           (bytes "abc123") [] (bytes "abc123") [] false false false processStart);
    try reflexivity; try (apply noByte_check; reflexivity).
  simpl. lia.
Defined.

(** ** The entry points *)

(** X28.  With [-hash h] and no [-branch], [main] opens the file
    [.git/objects/<first two bytes of h>/<rest of h>], and the run prints
    and ends as the decoder does on the decompressed content of that
    file. *)
Theorem main_decodes_stored_object
    (fs : fileSystem) (zlibNewReader : file -> option file) (hash : list byte)
    (objectFile contentReader : file) :
  (2 <= List.length hash)%nat ->
  osOpen fs (bytes ".git/objects/" ++ firstn 2 hash ++ bytes "/" ++ skipn 2 hash)
  = Some objectFile ->
  zlibNewReader objectFile = Some contentReader ->
  fst (main fs zlibNewReader false hash processStart)
  = fst (printObjectFileContent
           (NewScanner (fileBytes contentReader) (fileErr contentReader)))
  /\ stdout (snd (main fs zlibNewReader false hash processStart))
     = stdout (snd (printObjectFileContent
                      (NewScanner (fileBytes contentReader) (fileErr contentReader)))).
Proof.
  intros Hlen Hopen Hzlib. unfold main, parseObjectFile.
  destruct hash as [|c hash']; [simpl in Hlen; lia|].
  destruct (Nat.ltb_spec (List.length (c :: hash')) 2); [lia|].
  rewrite Hopen, Hzlib. unfold withScanner, processStart, NewScanner.
  cbn [stdout pending readErr].
  now destruct (printObjectFileContent
                  (mkWorld (fileBytes contentReader) (fileErr contentReader) [])).
Qed.

Lemma main_decodes_stored_object_witness :
  fst (main sampleObjects Some false (bytes "abcdef") processStart)
  = fst (printObjectFileContent
           (NewScanner (fileBytes (mkFile (bytes "blob 5" ++ NUL :: bytes "hello") false))
              (fileErr (mkFile (bytes "blob 5" ++ NUL :: bytes "hello") false))))
  /\ stdout (snd (main sampleObjects Some false (bytes "abcdef") processStart))
     = stdout (snd (printObjectFileContent
                      (NewScanner
                         (fileBytes (mkFile (bytes "blob 5" ++ NUL :: bytes "hello") false))
                         (fileErr (mkFile (bytes "blob 5" ++ NUL :: bytes "hello") false))))).
Proof.
  apply (main_decodes_stored_object sampleObjects Some (bytes "abcdef")
           (mkFile (bytes "blob 5" ++ NUL :: bytes "hello") false)
           (mkFile (bytes "blob 5" ++ NUL :: bytes "hello") false));
    try reflexivity.
  simpl. lia.
Defined.

(** X29.  What [main] does with a hash it cannot decode, always before
    anything is printed: a hash of one byte panics on the slice of its
    first two bytes, whatever the repository holds; a hash whose file does
    not open, or does not start a zlib stream, ends in [log.Fatal]; and
    with neither flag the run prints its hint and returns. *)
Theorem main_without_object
    (fs : fileSystem) (zlibNewReader : file -> option file)
    (c : byte) (missing corrupt : list byte) (objectFile : file) (w : world) :
  (2 <= List.length missing)%nat ->
  osOpen fs (bytes ".git/objects/" ++ firstn 2 missing ++ bytes "/" ++ skipn 2 missing)
  = None ->
  (2 <= List.length corrupt)%nat ->
  osOpen fs (bytes ".git/objects/" ++ firstn 2 corrupt ++ bytes "/" ++ skipn 2 corrupt)
  = Some objectFile ->
  zlibNewReader objectFile = None ->
  main fs zlibNewReader false [c] w = (Panicked PanicSliceBounds, w)
  /\ main fs zlibNewReader false missing w = (LogFatal, w)
  /\ main fs zlibNewReader false corrupt w = (LogFatal, w)
  /\ main fs zlibNewReader false [] w
     = (Returned tt,
        addStdout (bytes "No flag selected.. Try --help|-h" ++ [LF]) w).
Proof.
  intros Hmlen Hmissing Hclen Hcorrupt Hzlib.
  unfold main, parseObjectFile, logFatal.
  destruct missing as [|m1 missing']; [simpl in Hmlen; lia|].
  destruct corrupt as [|c1 corrupt']; [simpl in Hclen; lia|].
  destruct (Nat.ltb_spec (List.length (m1 :: missing')) 2); [lia|].
  destruct (Nat.ltb_spec (List.length (c1 :: corrupt')) 2); [lia|].
  rewrite Hmissing, Hcorrupt, Hzlib. repeat split.
Qed.

Lemma main_without_object_witness :
  main sampleObjects (fun _ => None) false ["a"%byte] processStart
  = (Panicked PanicSliceBounds, processStart)
  /\ main sampleObjects (fun _ => None) false (bytes "0123") processStart
     = (LogFatal, processStart)
  /\ main sampleObjects (fun _ => None) false (bytes "abcdef") processStart
     = (LogFatal, processStart)
  /\ main sampleObjects (fun _ => None) false [] processStart
     = (Returned tt,
        addStdout (bytes "No flag selected.. Try --help|-h" ++ [LF]) processStart).
Proof.
  apply (main_without_object sampleObjects (fun _ => None) "a"%byte (bytes "0123")
           (bytes "abcdef") (mkFile (bytes "blob 5" ++ NUL :: bytes "hello") false)
           processStart);
    try reflexivity; simpl; lia.
Defined.

Lemma Hello_branchesLoop_lines (fs : fileSystem) (path : list byte)
    (contentOf : list byte -> list byte) (branches : list (list byte)) :
  Forall (fun b =>
            osOpen fs (path ++ bytes "/" ++ b) = Some (mkFile (contentOf b) false)
            /\ contentOf b <> [] /\ noByte NUL (contentOf b)) branches ->
  forall w,
    Hello.branchesLoop fs path branches w
    = (Returned tt,
       addStdout
         (flat_map (fun b => b ++ bytes " " ++ removelast (contentOf b) ++ [LF])
            branches) w).
Proof.
  induction 1 as [|b bs (Hopen & Hne & Hno) _ IH]; intros w.
  - cbn [Hello.branchesLoop flat_map]. unfold ret. now rewrite addStdout_nil.
  - cbn [Hello.branchesLoop flat_map]. rewrite Hopen.
    unfold bind at 1, withScanner. cbn [fileBytes fileErr]. unfold bind at 1.
    rewrite scanBytesUntilDelimiter_eof by assumption.
    destruct (contentOf b) as [|x t] eqn:E; [contradiction|].
    unfold ret at 1. cbn [stdout]. rewrite world_eta.
    unfold bind, print. now rewrite IH, addStdout_addStdout.
Qed.

(** X30.  The entry point of [hello.go].  Run without an argument it
    panics on the index of [os.Args].  With the argument ["branches"] it
    prints one line per entry of the directory of the branches: the name
    and the whole file of the branch, not its first line only, less the
    last byte of the file. *)
Theorem Hello_main_branches
    (fs : fileSystem) (zlibNewReader : file -> option file)
    (program : list byte) (branches : list (list byte))
    (contentOf : list byte -> list byte) (w : world) :
  ioutilReadDir fs (bytes ".git/refs/heads") = Some branches ->
  Forall (fun b =>
            osOpen fs (bytes ".git/refs/heads" ++ bytes "/" ++ b)
            = Some (mkFile (contentOf b) false)
            /\ contentOf b <> [] /\ noByte NUL (contentOf b)) branches ->
  Hello.main fs zlibNewReader [program; bytes "branches"] w
  = (Returned tt,
     addStdout
       (flat_map (fun b => b ++ bytes " " ++ removelast (contentOf b) ++ [LF])
          branches) w)
  /\ Hello.main fs zlibNewReader [program] w = (Panicked (indexPanic 1 1), w)
  /\ Hello.main fs zlibNewReader [] w = (Panicked (indexPanic 1 0), w).
Proof.
  intros Hdir Hfiles. repeat split.
  unfold Hello.main. cbn [nth_error].
  destruct (bytes_eq_dec (bytes "branches") (bytes "branches")) as [_|E];
    [|now destruct E].
  rewrite Hdir. now apply Hello_branchesLoop_lines.
Qed.

Lemma Hello_main_branches_witness :
  Hello.main sampleRepository Some [bytes "hello"; bytes "branches"] processStart
  = (Returned tt,
     addStdout
       (flat_map (fun b => b ++ bytes " " ++ removelast (sampleContentOf b) ++ [LF])
          [bytes "dev"; bytes "main"]) processStart)
  /\ Hello.main sampleRepository Some [bytes "hello"] processStart
     = (Panicked (indexPanic 1 1), processStart)
  /\ Hello.main sampleRepository Some [] processStart
     = (Panicked (indexPanic 1 0), processStart).
Proof.
  apply (Hello_main_branches sampleRepository Some (bytes "hello")
           [bytes "dev"; bytes "main"] sampleContentOf processStart);
    try reflexivity.
  repeat (apply Forall_cons;
          [split; [reflexivity|split; [discriminate|apply noByte_check; reflexivity]]|]).
  apply Forall_nil.
Defined.
